(** * Disruptor Nova targeting and lifecycle: a shallow embedding

    Source files embedded here:
      - bot/utilities/use_disruptor_nova.py  (class UseDisruptorNova)
      - bot/utilities/nova_manager.py        (class NovaManager)

    Conventions of the embedding.
      - Python floats are idealised as exact rationals ([Q]) extended with
        the three IEEE specials (type [fval]).  A test [sqrt(d2) <= r] is
        carried out on squares ([sqrt_le]); [int(x)] is truncation toward
        zero ([py_int]).
      - A 2-D numpy array is a shape together with an indexing function
        ([ndarray]); indexing with computed coordinates goes through
        [getitem2], which implements numpy's negative indices and raises
        IndexError out of range.
      - Python exceptions are values of [exn]; a call that may raise returns
        a [result].  A try/except block is a match on the result.
      - Objects mutated in place (the nova instance, the coordinator's list)
        are threaded explicitly: every method returns the new object state
        next to its return value. *)

From Stdlib Require Import ZArith QArith Qabs List Bool Lia Sorted.
Import ListNotations.

Set Implicit Arguments.

Close Scope Q_scope.
Open Scope nat_scope.

(** ** Python results *)

Inductive exn : Type :=
| AttributeError
| TypeError
| ValueError
| IndexError.

Inductive result (A : Type) : Type :=
| Ok (a : A)
| Raise (e : exn).

Arguments Ok {A} a.
Arguments Raise {A} e.

(** ** Floats *)

Inductive fval : Type :=
| NegInf
| Fin (q : Q)
| PosInf
| NaN.

Definition np_isposinf (v : fval) : bool :=
  match v with PosInf => true | _ => false end.

Definition np_isneginf (v : fval) : bool :=
  match v with NegInf => true | _ => false end.

Definition np_isinf (v : fval) : bool := np_isposinf v || np_isneginf v.

Definition np_isnan (v : fval) : bool :=
  match v with NaN => true | _ => false end.

Definition is_finite (v : fval) : bool :=
  match v with Fin _ => true | _ => false end.

(** IEEE [a <= b] and [a < b]: false as soon as one side is NaN. *)
Definition fle (a b : fval) : bool :=
  match a, b with
  | NaN, _ | _, NaN => false
  | NegInf, _ => true
  | _, PosInf => true
  | Fin x, Fin y => Qle_bool x y
  | _, _ => false
  end.

Definition flt (a b : fval) : bool :=
  match a, b with
  | NaN, _ | _, NaN => false
  | PosInf, _ => false
  | _, NegInf => false
  | Fin x, Fin y => negb (Qle_bool y x)
  | _, _ => true
  end.

(** [v + q] and [v - q] for a finite [q]. *)
Definition fadd (v : fval) (q : Q) : fval :=
  match v with Fin x => Fin (x + q)%Q | _ => v end.

Definition fsub (v : fval) (q : Q) : fval :=
  match v with Fin x => Fin (x - q)%Q | _ => v end.

Definition Qlt_bool (a b : Q) : bool := negb (Qle_bool b a).

(** [int(x)] on a float: truncation toward zero. *)
Definition py_int (x : Q) : Z := Z.quot (Qnum x) (Zpos (Qden x)).

(** [sqrt(d2) <= r], [sqrt(d2) < r] and [sqrt(d2) > r] for [0 <= d2]. *)
Definition sqrt_le (d2 r : Q) : bool := Qle_bool 0%Q r && Qle_bool d2 (r * r)%Q.
Definition sqrt_lt (d2 r : Q) : bool := Qlt_bool 0%Q r && Qlt_bool d2 (r * r)%Q.
Definition sqrt_gt (d2 r : Q) : bool := negb (sqrt_le d2 r).

(** ** Points and units *)

(** [Point2]: the pair (x, y). *)
Definition point : Type := (Q * Q)%type.

Definition px (p : point) : Q := fst p.
Definition py (p : point) : Q := snd p.

(** [Point2.__bool__]: a point is falsy only at the origin. *)
Definition point_truthy (p : point) : bool :=
  negb (Qeq_bool (px p) 0%Q) || negb (Qeq_bool (py p) 0%Q).

Definition point_eqb (p q : point) : bool :=
  Qeq_bool (px p) (px q) && Qeq_bool (py p) (py q).

(** Square of [p.distance_to(q)]. *)
Definition dist2 (p q : point) : Q :=
  ((px p - px q) * (px p - px q) + (py p - py q) * (py p - py q))%Q.

(** [not x] for an optional point: None and the origin are falsy. *)
Definition truthy (o : option point) : bool :=
  match o with Some p => point_truthy p | None => false end.

Record Unit : Type := mkUnit {
  tag : Z;
  position : point;
  movement_speed : Q
}.

(** ** Arrays *)

Record ndarray (A : Type) : Type := mkArray {
  shape0 : nat;
  shape1 : nat;
  item : nat -> nat -> A
}.

Definition size {A} (a : ndarray A) : nat := shape0 a * shape1 a.

Definition same_shape {A B} (a : ndarray A) (b : ndarray B) : bool :=
  Nat.eqb (shape0 a) (shape0 b) && Nat.eqb (shape1 a) (shape1 b).

Definition amap {A B} (f : A -> B) (a : ndarray A) : ndarray B :=
  mkArray (shape0 a) (shape1 a) (fun i j => f (item a i j)).

(** Elementwise update that may look at the cell's coordinates. *)
Definition amapi {A B} (f : nat -> nat -> A -> B) (a : ndarray A) : ndarray B :=
  mkArray (shape0 a) (shape1 a) (fun i j => f i j (item a i j)).

Definition full {A} (h w : nat) (v : A) : ndarray A :=
  mkArray h w (fun _ _ => v).

(** An array given by its rows; cells missing from a short row read [d]. *)
Definition of_rows {A} (d : A) (rows : list (list A)) : ndarray A :=
  mkArray (length rows) (length (hd [] rows))
          (fun i j => nth j (nth i rows []) d).

(** numpy index normalisation on an axis of length [n]. *)
Definition np_index (n : nat) (i : Z) : result nat :=
  if (0 <=? i)%Z && (i <? Z.of_nat n)%Z then Ok (Z.to_nat i)
  else if (i <? 0)%Z && (- Z.of_nat n <=? i)%Z then Ok (Z.to_nat (i + Z.of_nat n))
  else Raise IndexError.

Definition getitem2 {A} (a : ndarray A) (y x : Z) : result A :=
  match np_index (shape0 a) y, np_index (shape1 a) x with
  | Ok i, Ok j => Ok (item a i j)
  | _, _ => Raise IndexError
  end.

(** [min(max(int(c), 0), n - 1)]: a coordinate clamped onto an axis. *)
Definition clamp_index (c : Q) (n : nat) : Z :=
  Z.min (Z.max (py_int c) 0) (Z.of_nat n - 1).

Definition flat_item {A} (a : ndarray A) (k : nat) : A :=
  item a (k / shape1 a) (k mod shape1 a).

(** The loop of numpy's float argmax: the running maximum is replaced when
    [not (x <= max)], and the scan stops at the first NaN. *)
Fixpoint argmax_loop (f : nat -> fval) (ks : list nat) (mi : nat) (mp : fval) : nat :=
  match ks with
  | [] => mi
  | k :: ks' =>
      if np_isnan mp then mi
      else if fle (f k) mp then argmax_loop f ks' mi mp
           else argmax_loop f ks' k (f k)
  end.

(** [np.argmax(a)] on the flattened array; ValueError on an empty one. *)
Definition np_argmax (a : ndarray fval) : result nat :=
  match size a with
  | O => Raise ValueError
  | S n => Ok (argmax_loop (flat_item a) (seq 1 n) 0 (flat_item a 0))
  end.

(** [np.unravel_index(k, a.shape)] as (row, column). *)
Definition np_unravel_index {A} (k : nat) (a : ndarray A) : result (nat * nat) :=
  if k <? size a then Ok (k / shape1 a, k mod shape1 a) else Raise ValueError.

Fixpoint existsb_upto (n : nat) (p : nat -> bool) : bool :=
  match n with
  | O => false
  | S n' => existsb_upto n' p || p n'
  end.

(** [np.any(mask)]. *)
Definition np_any (m : ndarray bool) : bool :=
  existsb_upto (size m) (flat_item m).

(** ** The tactical grid handed out by the mediator *)

(** What reading [mediator.get_tactical_ground_grid] can produce. *)
Inductive tactical_grid : Type :=
| GridRaises (e : exn)
| GridNotArray
| GridArray (g : ndarray fval).

(** The three replacement passes of [get_grid], cell by cell:
    +inf to 500.0, -inf to -500.0, then NaN to 0.0.  Each pass is guarded
    by an [np.any] test in the source; a pass that is skipped would have
    changed no cell. *)
Definition replace_inf (v : fval) : fval :=
  let v1 := if np_isposinf v then Fin 500%Q else v in
  if np_isneginf v1 then Fin (-500)%Q else v1.

Definition replace_nan (v : fval) : fval :=
  if np_isnan v then Fin 0%Q else v.

Definition get_grid (m : tactical_grid) : option (ndarray fval) :=
  match m with
  | GridArray g => Some (amap replace_nan (amap replace_inf g))
  | GridNotArray => None
  | GridRaises _ => None
  end.

(** ** The nova instance (class UseDisruptorNova) *)

Record UseDisruptorNova : Type := mkNova {
  cooldown : Q;
  nova_duration : Q;
  best_target_pos : option point;
  frames_left : Z;
  distance_left : Q;
  (** [self.unit]: the in-game nova unit, None until one is bound. *)
  nova_unit : option Unit;
  mediator : tactical_grid;
  best_target_influence : fval;
  (** [self.best_target_score] exists only once the position tier set it. *)
  best_target_score : option Z;
  should_debug_visuals : bool;
  (** [hasattr(self, 'influence_grid')]. *)
  has_influence_grid : bool
}.

Definition set_best_target_pos (s : UseDisruptorNova) (p : option point) :=
  mkNova (cooldown s) (nova_duration s) p (frames_left s) (distance_left s)
         (nova_unit s) (mediator s) (best_target_influence s)
         (best_target_score s) (should_debug_visuals s) (has_influence_grid s).

Definition set_frames_left (s : UseDisruptorNova) (n : Z) :=
  mkNova (cooldown s) (nova_duration s) (best_target_pos s) n (distance_left s)
         (nova_unit s) (mediator s) (best_target_influence s)
         (best_target_score s) (should_debug_visuals s) (has_influence_grid s).

Definition set_distance_left (s : UseDisruptorNova) (d : Q) :=
  mkNova (cooldown s) (nova_duration s) (best_target_pos s) (frames_left s) d
         (nova_unit s) (mediator s) (best_target_influence s)
         (best_target_score s) (should_debug_visuals s) (has_influence_grid s).

Definition set_unit (s : UseDisruptorNova) (u : option Unit) :=
  mkNova (cooldown s) (nova_duration s) (best_target_pos s) (frames_left s)
         (distance_left s) u (mediator s) (best_target_influence s)
         (best_target_score s) (should_debug_visuals s) (has_influence_grid s).

Definition set_best_target_influence (s : UseDisruptorNova) (v : fval) :=
  mkNova (cooldown s) (nova_duration s) (best_target_pos s) (frames_left s)
         (distance_left s) (nova_unit s) (mediator s) v
         (best_target_score s) (should_debug_visuals s) (has_influence_grid s).

Definition set_best_target_score (s : UseDisruptorNova) (z : option Z) :=
  mkNova (cooldown s) (nova_duration s) (best_target_pos s) (frames_left s)
         (distance_left s) (nova_unit s) (mediator s) (best_target_influence s)
         z (should_debug_visuals s) (has_influence_grid s).

Definition set_influence_grid (s : UseDisruptorNova) :=
  mkNova (cooldown s) (nova_duration s) (best_target_pos s) (frames_left s)
         (distance_left s) (nova_unit s) (mediator s) (best_target_influence s)
         (best_target_score s) (should_debug_visuals s) true.

(** [UseDisruptorNova.__init__(self, mediator, bot)]. *)
Definition init (m : tactical_grid) : UseDisruptorNova :=
  mkNova (214 # 10) (21 # 10) None 48 0 None m (Fin 0%Q) None false false.

(** The constructor called with a list of positional arguments: the
    signature takes exactly [mediator] and [bot]. *)
Inductive pyarg : Type :=
| ArgInt (z : Z)
| ArgMediator (m : tactical_grid)
| ArgOther.

Definition construct (args : list pyarg) : result UseDisruptorNova :=
  match args with
  | [ArgMediator m; _] => Ok (init m)
  | [_; _] => Ok (init (GridRaises AttributeError))
  | _ => Raise TypeError
  end.

(** ** Position-sampling tier: [_select_target_position_based] *)

Definition nova_radius : Q := 3 # 2.

(** [range(0, stop, step)]. *)
Definition py_range (stop step : nat) : list Z :=
  map (fun k => Z.of_nat (k * step)) (seq 0 ((stop + step - 1) / step)).

Definition surroundings : list (Q * Q) :=
  [(2, 0); (-2, 0); (0, 2); (0, -2)]%Q.

Definition candidate_positions (enemy_units : list Unit) (x_max y_max : nat)
  : list point :=
  flat_map (fun enemy =>
              let pos := position enemy in
              pos :: map (fun d => (px pos + fst d, py pos + snd d)%Q) surroundings)
           enemy_units
  ++ flat_map (fun x => map (fun y => (inject_Z x, inject_Z y)) (py_range y_max 8))
              (py_range x_max 8).

(** [sum(1 for u in units if pos.distance_to(u.position) <= nova_radius)]. *)
Definition count_hit (pos : point) (units : list Unit) : Z :=
  Z.of_nat (length (filter (fun u => sqrt_le (dist2 pos (position u)) nova_radius) units)).

(** The "skip excluded positions" test.  An exception while indexing the
    mask is printed and the position is scored like any other. *)
Definition excluded (exclusion_mask : option (ndarray bool))
           (grid : option (ndarray fval)) (pos : point) : bool :=
  match exclusion_mask, grid with
  | Some m, Some g =>
      match getitem2 m (clamp_index (py pos) (shape0 g))
                       (clamp_index (px pos) (shape1 g)) with
      | Ok b => b
      | Raise _ => false
      end
  | _, _ => false
  end.

Definition score_position (enemy_units friendly_units : list Unit) (pos : point)
  : option (point * Z) :=
  let enemies_hit := count_hit pos enemy_units in
  let friendly_hit := count_hit pos friendly_units in
  if (0 <? enemies_hit)%Z then
    let score := (enemies_hit * 150 - friendly_hit * 200)%Z in
    if (-100 <? score)%Z then Some (pos, score) else None
  else None.

Definition collect_scores (exclusion_mask : option (ndarray bool))
           (grid : option (ndarray fval)) (enemy_units friendly_units : list Unit)
           (candidates : list point) : list (point * Z) :=
  flat_map (fun pos =>
              if excluded exclusion_mask grid pos then []
              else match score_position enemy_units friendly_units pos with
                   | Some ps => [ps]
                   | None => []
                   end)
           candidates.

(** [scores.sort(key=lambda x: x[1], reverse=True)]: stable, highest first. *)
Fixpoint insert_desc (x : point * Z) (l : list (point * Z)) : list (point * Z) :=
  match l with
  | [] => [x]
  | y :: l' => if (snd x <? snd y)%Z then y :: insert_desc x l' else x :: l
  end.

Definition sort_desc (l : list (point * Z)) : list (point * Z) :=
  fold_right insert_desc [] l.

(** [min(units, key=lambda u: origin.distance_to(u.position))] continued
    from a current best: the first unit at least distance wins. *)
Fixpoint min_by_distance (origin : point) (best : Unit) (units : list Unit) : Unit :=
  match units with
  | [] => best
  | u :: us =>
      if Qlt_bool (dist2 origin (position u)) (dist2 origin (position best))
      then min_by_distance origin u us
      else min_by_distance origin best us
  end.

Definition _select_target_position_based (self : UseDisruptorNova)
           (enemy_units friendly_units : list Unit)
           (exclusion_mask : option (ndarray bool))
  : option point * UseDisruptorNova :=
  let grid := get_grid (mediator self) in
  let '(x_max, y_max) :=
    match grid with
    | Some g => (shape1 g, shape0 g)
    | None => (200, 200)
    end in
  let candidates := candidate_positions enemy_units x_max y_max in
  let scores :=
    sort_desc (collect_scores exclusion_mask grid enemy_units friendly_units candidates) in
  match scores with
  | (best_pos, best_score) :: _ =>
      (Some best_pos,
       set_best_target_score (set_best_target_pos self (Some best_pos)) (Some best_score))
  | [] =>
      match enemy_units with
      | [] => (None, self)
      | e :: es =>
          match nova_unit self with
          | None => (None, self)  (* AttributeError on None, caught: return None *)
          | Some u =>
              let target_pos := position (min_by_distance (position u) e es) in
              (Some target_pos,
               set_best_target_score (set_best_target_pos self (Some target_pos))
                                     (Some (-1)%Z))
          end
      end
  end.

(** ** Grid tier of [select_best_target] *)

(** [working_grid[exclusion_mask] = -np.inf] on a copy of the grid. *)
Definition apply_exclusion (grid : ndarray fval) (mask : ndarray bool) : ndarray fval :=
  amapi (fun i j v => if item mask i j then NegInf else v) grid.

(** Grid cell (row, column) of a unit, clamped onto the grid. *)
Definition cell_of {A} (g : ndarray A) (u : Unit) : Z * Z :=
  (clamp_index (py (position u)) (shape0 g), clamp_index (px (position u)) (shape1 g)).

(** Squared distance from cell (i, j) to the cell [c]. *)
Definition cell_dist2 (i j : nat) (c : Z * Z) : Q :=
  inject_Z ((Z.of_nat i - fst c) * (Z.of_nat i - fst c)
            + (Z.of_nat j - snd c) * (Z.of_nat j - snd c)).

Definition enemy_positions {A} (g : ndarray A) (enemy_units : list Unit) : ndarray bool :=
  mkArray (shape0 g) (shape1 g)
          (fun i j => existsb (fun e => (Z.of_nat i =? fst (cell_of g e))%Z
                                        && (Z.of_nat j =? snd (cell_of g e))%Z)
                              enemy_units).

Definition enemy_boost_mask {A} (g : ndarray A) (enemy_units : list Unit) : ndarray bool :=
  mkArray (shape0 g) (shape1 g)
          (fun i j => existsb (fun e => sqrt_le (cell_dist2 i j (cell_of g e)) nova_radius)
                              enemy_units).

(** [working_grid[enemy_boost_mask] += 50], done when some enemy is marked. *)
Definition boost_enemies (w : ndarray fval) (enemy_units : list Unit) : ndarray fval :=
  if np_any (enemy_positions w enemy_units) then
    amapi (fun i j v => if item (enemy_boost_mask w enemy_units) i j then fadd v 50 else v) w
  else w.

(** 150 for every friendly whose blast area covers the cell. *)
Definition friendly_penalty_map {A} (g : ndarray A) (friendly_units : list Unit)
  : ndarray Q :=
  mkArray (shape0 g) (shape1 g)
          (fun i j => fold_left
                        (fun acc f => if sqrt_le (cell_dist2 i j (cell_of g f)) nova_radius
                                      then (acc + 150)%Q else acc)
                        friendly_units 0%Q).

(** [working_grid -= friendly_penalty_map], done when there are friendlies. *)
Definition penalise_friendlies (w : ndarray fval) (friendly_units : list Unit)
  : ndarray fval :=
  match friendly_units with
  | [] => w
  | _ => amapi (fun i j v => fsub v (item (friendly_penalty_map w friendly_units) i j)) w
  end.

Definition edge_width : nat := 2.

(** Cells hit by one of the four edge slices. *)
Definition on_edge (h w i j : nat) : bool :=
  (i <? edge_width) || (j <? edge_width)
  || (h - edge_width <=? i) || (w - edge_width <=? j).

Definition mask_edges (w : ndarray fval) : ndarray fval :=
  amapi (fun i j v => if on_edge (shape0 w) (shape1 w) i j then NegInf else v) w.

(** [210 < best_influence < 600]. *)
Definition acceptable (best_influence : fval) : bool :=
  flt (Fin 210%Q) best_influence && flt best_influence (Fin 600%Q).

(** The enhanced grid the maximum is taken over. *)
Definition enhanced_grid (working_grid : ndarray fval)
           (enemy_units friendly_units : list Unit) : ndarray fval :=
  mask_edges (penalise_friendlies (boost_enemies working_grid enemy_units) friendly_units).

(** Best cell (row, column) of the enhanced grid and its value. *)
Definition best_cell (working_grid : ndarray fval)
           (enemy_units friendly_units : list Unit) : result (nat * nat * fval) :=
  let w := enhanced_grid working_grid enemy_units friendly_units in
  match np_argmax w with
  | Raise e => Raise e
  | Ok k =>
      match np_unravel_index k w with
      | Raise e => Raise e
      | Ok (best_y, best_x) => Ok (best_y, best_x, item w best_y best_x)
      end
  end.

(** [Point2((float(x), float(y)))] for a cell. *)
Definition cell_point (y x : nat) : point :=
  (inject_Z (Z.of_nat x), inject_Z (Z.of_nat y)).

(** [_visualize_grid]: stores the grid on the instance; everything after
    that is drawing inside a try block. *)
Definition _visualize_grid (self : UseDisruptorNova) : UseDisruptorNova :=
  set_influence_grid self.

(** The grid tier run on a working grid: Some target when the best cell is
    accepted, None when the selector must fall back. *)
Definition grid_tier (self : UseDisruptorNova) (working_grid : ndarray fval)
           (enemy_units friendly_units : list Unit)
  : option (point * UseDisruptorNova) :=
  match best_cell working_grid enemy_units friendly_units with
  | Raise _ => None
  | Ok (best_y, best_x, best_influence) =>
      if acceptable best_influence then
        let best_pos := cell_point best_y best_x in
        let self1 :=
          set_best_target_influence (set_best_target_pos self (Some best_pos))
                                    best_influence in
        Some (best_pos,
              if should_debug_visuals self1 then _visualize_grid self1 else self1)
      else None
  end.

(** ** [select_best_target] *)

Definition select_best_target (self : UseDisruptorNova)
           (enemy_units friendly_units : list Unit)
           (exclusion_mask : option (ndarray bool))
  : option point * UseDisruptorNova :=
  match enemy_units with
  | [] => (None, self)
  | _ :: _ =>
      match get_grid (mediator self) with
      | None =>
          _select_target_position_based self enemy_units friendly_units exclusion_mask
      | Some grid0 =>
          let grid := amap replace_inf grid0 in
          (* the debug line takes np.min(grid): ValueError on an empty grid,
             caught by the outermost handler *)
          if size grid =? 0 then (None, self)
          else
            let fallback :=
              _select_target_position_based self enemy_units friendly_units
                                            exclusion_mask in
            let tier working_grid :=
              match grid_tier self working_grid enemy_units friendly_units with
              | Some (best_pos, self') => (Some best_pos, self')
              | None => fallback
              end in
            match exclusion_mask with
            | Some m =>
                if same_shape m grid then tier (apply_exclusion grid m)
                else fallback
            | None => tier grid
            end
      end
  end.

(** ** The object passed as [nova_manager]

    [update_target_position] and [execute] use their [nova_manager]
    argument through five names: the attributes [nova_speed] and
    [current_targets] and the methods [unregister_nova_target],
    [register_nova_target] and [get_exclusion_mask].  None of them is
    defined in this repository, so each is a field that is [None] when the
    object has no such attribute; the methods are parameters acting on the
    claimed positions.  The mask a registry returns has the grid's shape
    (spec, data model: "boolean grid, same shape as the value field"), so
    it is given as a predicate on cells. *)

Definition claims : Type := option (list point).

Record manager : Type := mkManager {
  nova_speed : option Q;
  current_targets : claims;
  unregister_nova_target : option (point -> claims -> result unit * claims);
  register_nova_target : option (point -> claims -> result bool * claims);
  get_exclusion_mask : option (claims -> ndarray fval -> result (nat -> nat -> bool))
}.

Definition set_current_targets (m : manager) (c : claims) : manager :=
  mkManager (nova_speed m) c (unregister_nova_target m) (register_nova_target m)
            (get_exclusion_mask m).

(** Method calls: AttributeError when the method is missing. *)
Definition call_unregister (m : manager) (p : point) : result unit * manager :=
  match unregister_nova_target m with
  | None => (Raise AttributeError, m)
  | Some f => let '(r, c) := f p (current_targets m) in (r, set_current_targets m c)
  end.

Definition call_register (m : manager) (p : point) : result bool * manager :=
  match register_nova_target m with
  | None => (Raise AttributeError, m)
  | Some f => let '(r, c) := f p (current_targets m) in (r, set_current_targets m c)
  end.

Definition call_get_exclusion_mask (m : manager) (grid : ndarray fval)
  : result (ndarray bool) :=
  match get_exclusion_mask m with
  | None => Raise AttributeError
  | Some f =>
      match f (current_targets m) grid with
      | Ok p => Ok (mkArray (shape0 grid) (shape1 grid) p)
      | Raise e => Raise e
      end
  end.

(** ** [update_target_position] *)

(** Frames per second used to convert frames into seconds. *)
Definition fps : Q := 224 # 10.

Definition min_spacing : Q := 5.

(** [distances > max_travel_distance] from the nova's position. *)
Definition out_of_reach_mask (grid : ndarray fval) (current_position : point)
           (max_travel_distance : Q) : ndarray bool :=
  mkArray (shape0 grid) (shape1 grid)
          (fun i j => sqrt_gt (dist2 (cell_point i j) current_position)
                              max_travel_distance).

Definition logical_or (a b : ndarray bool) : ndarray bool :=
  amapi (fun i j v => v || item b i j) a.

(** Some target of [targets] other than [own] lies closer than 5.0 to [p]. *)
Definition too_close_to (targets : list point) (own p : point) : bool :=
  existsb (fun target_pos => negb (point_eqb target_pos own)
                             && sqrt_lt (dist2 p target_pos) min_spacing)
          targets.

(** Maximum of a masked grid as (target, influence). *)
Definition max_cell (masked_grid : ndarray fval) : result (point * fval) :=
  match np_argmax masked_grid with
  | Raise e => Raise e
  | Ok k =>
      match np_unravel_index k masked_grid with
      | Raise e => Raise e
      | Ok (max_y, max_x) => Ok (cell_point max_y max_x, item masked_grid max_y max_x)
      end
  end.

(** The search over the grid's own influence values (the try block that
    sets [new_target] and [new_influence]); None for both on any failure. *)
Definition search_grid (grid : ndarray fval) (combined_mask : ndarray bool)
           (nova_manager : manager) (own : point) : option (point * fval) :=
  let valid_positions_mask := amap negb combined_mask in
  if np_any valid_positions_mask then
    let grid_copy := amap replace_inf grid in
    let masked_grid :=
      amapi (fun i j v => if item valid_positions_mask i j then v else Fin (-500)%Q)
            grid_copy in
    match max_cell masked_grid with
    | Raise _ => None
    | Ok (new_target, new_influence) =>
        let is_valid_target :=
          match current_targets nova_manager with
          | Some targets => negb (too_close_to targets own new_target)
          | None => true
          end in
        if is_valid_target then Some (new_target, new_influence)
        else
          match current_targets nova_manager with
          | None => None
          | Some targets =>
              let masked_grid' :=
                amapi (fun i j v =>
                         if existsb (fun target_pos =>
                                       sqrt_lt (dist2 (cell_point i j) target_pos) min_spacing)
                                    targets
                         then Fin (-500)%Q else v)
                      masked_grid in
              match max_cell masked_grid' with
              | Raise _ => None
              | Ok r => Some r
              end
          end
    end
  else None.

(** Influence read from the grid under a point, infinities replaced. *)
Definition influence_at (grid : ndarray fval) (p : point) : result fval :=
  match getitem2 grid (clamp_index (py p) (shape0 grid))
                      (clamp_index (px p) (shape1 grid)) with
  | Ok v => Ok (replace_inf v)
  | Raise e => Raise e
  end.

(** The improvement of [new] over [current]:
    [1.0 if new > current else -1.0] when [abs(current) < 1.0], otherwise
    [(new - current) / abs(current)], with IEEE results on the specials. *)
Definition improvement (current_influence new_influence : fval) : fval :=
  match current_influence with
  | Fin c =>
      if Qlt_bool (Qabs c) 1 then
        if flt current_influence new_influence then Fin 1%Q else Fin (- (1))%Q
      else
        match new_influence with
        | Fin n => Fin ((n - c) / Qabs c)%Q
        | other => other
        end
  | _ => NaN
  end.

Definition improvement_threshold : Q := 15 # 100.

(** [improvement > 0.15]. *)
Definition significant (imp : fval) : bool := flt (Fin improvement_threshold) imp.

(** The spacing test made before switching: it looks at the registry only
    when [current_targets] exists and is not empty. *)
Definition too_close (nova_manager : manager) (own new_target : point) : bool :=
  match current_targets nova_manager with
  | Some (t :: ts) => too_close_to (t :: ts) own new_target
  | _ => false
  end.

(** The comparison that ends [update_target_position] ("if we found a
    significantly better target, switch to it"), run on the instance and
    the manager as the search and the re-registration left them. *)
Definition decide_switch (self : UseDisruptorNova) (grid : ndarray fval)
           (nova_manager : manager)
           (new_target : option point) (new_influence : option fval)
  : bool * UseDisruptorNova * manager :=
  match new_target, best_target_pos self with
  | Some nt, Some cur =>
      if point_truthy nt && point_truthy cur then
        match influence_at grid cur with
        | Raise _ => (false, self, nova_manager)
        | Ok current_influence =>
            let new_inf :=
              match new_influence with
              | Some v => Ok v
              | None => influence_at grid nt
              end in
            match new_inf with
            | Raise _ => (false, self, nova_manager)
            | Ok ni =>
                let self' := set_best_target_influence self ni in
                if significant (improvement current_influence ni) then
                  if too_close nova_manager cur nt then (true, self', nova_manager)
                  else
                    (true, set_best_target_pos self' (Some nt),
                     snd (call_register nova_manager nt))
                else (false, self', nova_manager)
            end
        end
      else (false, self, nova_manager)
  | _, _ => (false, self, nova_manager)
  end.

Definition update_target_position (self : UseDisruptorNova)
           (enemy_units friendly_units : list Unit) (nova_manager : manager)
  : bool * UseDisruptorNova * manager :=
  match best_target_pos self, nova_unit self with
  | Some own, Some u =>
    if negb (point_truthy own) then (false, self, nova_manager)
    else if (frames_left self <? 5)%Z then (false, self, nova_manager)
    else
      let current_position := position u in
      match nova_speed nova_manager with
      | None => (false, self, nova_manager)   (* AttributeError, outer handler *)
      | Some speed =>
        let max_travel_distance := (speed * (inject_Z (frames_left self) / fps))%Q in
        match get_grid (mediator self) with
        | None => (false, self, nova_manager)
        | Some grid =>
          let reach := out_of_reach_mask grid current_position max_travel_distance in
          (* temporarily unregister our own target *)
          let '(unreg, mgr1) := call_unregister nova_manager own in
          let current_target_temporarily_unregistered :=
            match unreg with Ok _ => true | Raise _ => false end in
          let combined_mask :=
            match call_get_exclusion_mask mgr1 grid with
            | Ok exclusion_mask => logical_or exclusion_mask reach
            | Raise _ => reach
            end in
          (* grid search, then the selector as a fallback *)
          let '(new_target, new_influence, self1) :=
            match search_grid grid combined_mask mgr1 own with
            | Some (t, v) => (Some t, Some v, self)
            | None =>
                let '(t, s) :=
                  select_best_target self enemy_units friendly_units
                                     (Some combined_mask) in
                (t, None, s)
            end in
          (* re-register whatever best_target_pos now holds *)
          let mgr2 :=
            match best_target_pos self1 with
            | Some p =>
                if current_target_temporarily_unregistered && point_truthy p
                then snd (call_register mgr1 p) else mgr1
            | None => mgr1
            end in
          decide_switch self1 grid mgr2 new_target new_influence
        end
      end
  | _, _ => (false, self, nova_manager)
  end.

(** ** Per-tick methods of the instance *)

(** Commands issued to the simulation. *)
Inductive command : Type :=
| Move (u : Unit) (target : point)
| MoveTowards (u : Unit) (target : point) (distance : Q)
| UseAbility (u : Unit) (target : point).

(** [calculate_distance_left]. *)
Definition calculate_distance_left (self : UseDisruptorNova) (unit_speed : Q) : Q :=
  (inject_Z (frames_left self) * (unit_speed / fps))%Q.

(** [load_info(unit)]. *)
Definition load_info (self : UseDisruptorNova) (u : Unit) : UseDisruptorNova :=
  let s1 := set_frames_left (set_unit self (Some u)) 48 in
  let s2 := set_distance_left s1 (calculate_distance_left s1 (movement_speed u)) in
  set_best_target_pos s2 (Some (position u)).

(** [update_info()]: the frame count is decremented before the unit's
    speed is read, so the decrement survives an AttributeError. *)
Definition update_info (self : UseDisruptorNova) : result unit * UseDisruptorNova :=
  let s1 := set_frames_left self (frames_left self - 1) in
  match nova_unit s1 with
  | None => (Raise AttributeError, s1)
  | Some u => (Ok tt, set_distance_left s1 (calculate_distance_left s1 (movement_speed u)))
  end.

(** [run_debug()]: its second print reads [self.unit.position]; the drawing
    that follows is inside a try block. *)
Definition run_debug (self : UseDisruptorNova) : result unit :=
  match nova_unit self with
  | None => Raise AttributeError
  | Some _ => Ok tt
  end.

(** [run_step(enemy_units, friendly_units, nova_manager=None)].
    Returns the result, the instance, the manager and the commands issued. *)
Definition run_step (self : UseDisruptorNova)
           (enemy_units friendly_units : list Unit) (nova_manager : option manager)
  : result bool * UseDisruptorNova * option manager * list command :=
  if (frames_left self <=? 0)%Z then (Ok false, self, nova_manager, [])
  else
    let s1 := set_frames_left self (frames_left self - 1) in
    let '(s2, mgr) :=
      match nova_manager with
      | Some m =>
          let '(_, s, m') := update_target_position s1 enemy_units friendly_units m in
          (s, Some m')
      | None => (s1, None)
      end in
    let debug :=
      if (frames_left s2 mod 22 =? 0)%Z && has_influence_grid s2
      then run_debug s2 else Ok tt in
    match debug with
    | Raise e => (Raise e, s2, mgr, [])
    | Ok _ =>
        match best_target_pos s2 with
        | None => (Ok (0 <? frames_left s2)%Z, s2, mgr, [])
        | Some target =>
            match nova_unit s2 with
            | None => (Raise AttributeError, s2, mgr, [])
            | Some u =>
                if negb (point_eqb target (position u))
                then (Ok (0 <? frames_left s2)%Z, s2, mgr, [Move u target])
                else (Ok (0 <? frames_left s2)%Z, s2, mgr, [])
            end
        end
    end.

(** ** [execute]: the launch *)

(** The launching unit: whether the nova ability is among its abilities
    and what issuing the ability command reports. *)
Record Disruptor : Type := mkDisruptor {
  d_unit : Unit;
  has_nova_ability : bool;
  fire_result : result bool
}.

Definition can_use (disruptor_unit : Disruptor) : bool :=
  has_nova_ability disruptor_unit.

Definition launch_speed : Q := 595 # 100.
Definition nova_lifetime : Q := 21 # 10.

(** Returns whether [self] was returned (a launch), the instance, the
    manager and the commands issued. *)
Definition execute (self : UseDisruptorNova) (disruptor_unit : Disruptor)
           (enemy_units friendly_units : list Unit) (nova_manager : option manager)
  : bool * UseDisruptorNova * option manager * list command :=
  if negb (can_use disruptor_unit) then (false, self, nova_manager, [])
  else
    (* the exclusion mask asked from the manager; the outer None stands for
       the early "return None" taken when the grid is None *)
    let mask : option (option (ndarray bool)) :=
      match nova_manager with
      | None => Some None
      | Some m =>
          match get_grid (mediator self) with
          | None => None
          | Some grid =>
              match call_get_exclusion_mask m grid with
              | Ok em => Some (Some em)
              | Raise _ => Some None
              end
          end
      end in
    match mask with
    | None => (false, self, nova_manager, [])
    | Some exclusion_mask =>
        let '(target, s1) :=
          select_best_target self enemy_units friendly_units exclusion_mask in
        match target with
        | None => (false, s1, nova_manager, [])
        | Some t =>
            if negb (point_truthy t) then (false, s1, nova_manager, [])
            else
              let '(target_registered, mgr1) :=
                match nova_manager with
                | None => (false, None)
                | Some m =>
                    let '(r, m') := call_register m t in
                    (match r with Ok b => b | Raise _ => false end, Some m')
                end in
              let max_travel_distance := (launch_speed * nova_lifetime)%Q in
              let '(did_fire, cmds) :=
                if sqrt_le (dist2 (position (d_unit disruptor_unit)) t) max_travel_distance
                then (match fire_result disruptor_unit with
                      | Ok b => b
                      | Raise _ => false
                      end, [UseAbility (d_unit disruptor_unit) t])
                else (false, [MoveTowards (d_unit disruptor_unit) t 5]) in
              if did_fire then
                (true,
                 set_unit (set_frames_left (set_best_target_pos s1 (Some t)) 48) None,
                 mgr1, cmds)
              else
                let mgr2 :=
                  match mgr1 with
                  | Some m => if target_registered
                              then Some (snd (call_unregister m t)) else mgr1
                  | None => None
                  end in
                (false, s1, mgr2, cmds)
        end
    end.

(** ** The coordinator (class NovaManager)

    [active_novas] holds references to instances; the instances live in a
    store, so that an instance listed twice is one object. *)

Record store : Type := mkStore {
  objects : nat -> UseDisruptorNova;
  next_ref : nat
}.

Definition write (st : store) (r : nat) (v : UseDisruptorNova) : store :=
  mkStore (fun r' => if r' =? r then v else objects st r') (next_ref st).

Definition alloc (st : store) (v : UseDisruptorNova) : nat * store :=
  (next_ref st,
   mkStore (fun r' => if r' =? next_ref st then v else objects st r') (S (next_ref st))).

Record NovaManager : Type := mkNovaManager {
  bot : pyarg;
  map_data : pyarg;
  active_novas : list nat
}.

Definition set_active_novas (m : NovaManager) (l : list nat) : NovaManager :=
  mkNovaManager (bot m) (map_data m) l.

(** Attribute lookup on a NovaManager instance used as [nova_manager]:
    the class defines [bot], [map_data], [active_novas], [add_nova],
    [update] and [get_active_novas], and none of the five names above. *)
Definition as_manager (m : NovaManager) : manager :=
  mkManager None None None None None.

(** Objects handed to [add_nova]. *)
Inductive pyobj : Type :=
| ObjNova (r : nat)        (* a UseDisruptorNova instance: has update_info *)
| ObjUnit (u : Unit)       (* a game unit: no update_info *)
| ObjPlain.                (* any other object without update_info *)

Definition has_update_info (o : pyobj) : bool :=
  match o with ObjNova _ => true | _ => false end.

(** [add_nova(nova)]. *)
Definition add_nova (m : NovaManager) (st : store) (nova : pyobj)
  : result unit * NovaManager * store :=
  match nova with
  | ObjNova r => (Ok tt, set_active_novas m (active_novas m ++ [r]), st)
  | _ =>
      match construct [ArgInt 10; ArgInt 5; map_data m; bot m] with
      | Raise e => (Raise e, m, st)
      | Ok nova_instance =>
          match nova with
          | ObjUnit u =>
              let '(r, st') := alloc st (load_info nova_instance u) in
              (Ok tt, set_active_novas m (active_novas m ++ [r]), st')
          | _ => (Raise AttributeError, m, st)
          end
      end
  end.

(** The first loop of [update]: every listed instance gets [update_info]
    and then [run_step] without a manager; the expired ones are collected.
    An exception leaves the loop with the mutations made so far. *)
Fixpoint update_each (refs : list nat) (st : store)
         (enemy_units friendly_units : list Unit)
         (expired : list nat) (cmds : list command)
  : result (list nat) * store * list command :=
  match refs with
  | [] => (Ok expired, st, cmds)
  | r :: rest =>
      match update_info (objects st r) with
      | (Raise e, nova1) => (Raise e, write st r nova1, cmds)
      | (Ok _, nova1) =>
          match run_step nova1 enemy_units friendly_units None with
          | (Raise e, nova2, _, c) => (Raise e, write st r nova2, cmds ++ c)
          | (Ok _, nova2, _, c) =>
              update_each rest (write st r nova2) enemy_units friendly_units
                          (if (frames_left nova2 <=? 0)%Z then expired ++ [r] else expired)
                          (cmds ++ c)
          end
      end
  end.

(** [list.remove(x)]: drops the first occurrence, ValueError without one. *)
Fixpoint list_remove (x : nat) (l : list nat) : result (list nat) :=
  match l with
  | [] => Raise ValueError
  | y :: l' =>
      if y =? x then Ok l'
      else match list_remove x l' with
           | Ok l'' => Ok (y :: l'')
           | Raise e => Raise e
           end
  end.

(** The second loop of [update]; the list is mutated as it goes. *)
Fixpoint remove_expired (expired active : list nat) : result unit * list nat :=
  match expired with
  | [] => (Ok tt, active)
  | r :: rest =>
      match list_remove r active with
      | Ok active' => remove_expired rest active'
      | Raise e => (Raise e, active)
      end
  end.

(** [update(enemy_units, friendly_units)]. *)
Definition update (m : NovaManager) (st : store)
           (enemy_units friendly_units : list Unit)
  : result unit * NovaManager * store * list command :=
  match update_each (active_novas m) st enemy_units friendly_units [] [] with
  | (Raise e, st', cmds) => (Raise e, m, st', cmds)
  | (Ok expired, st', cmds) =>
      let '(r, active) := remove_expired expired (active_novas m) in
      (r, set_active_novas m active, st', cmds)
  end.

(** [n] successive ticks with the same unit lists, stopping at the first
    exception. *)
Fixpoint ticks (n : nat) (m : NovaManager) (st : store)
         (enemy_units friendly_units : list Unit)
  : result unit * NovaManager * store :=
  match n with
  | O => (Ok tt, m, st)
  | S n' =>
      match update m st enemy_units friendly_units with
      | (Ok _, m', st', _) => ticks n' m' st' enemy_units friendly_units
      | (Raise e, m', st', _) => (Raise e, m', st')
      end
  end.

(** ** Vocabulary of the properties *)

(** A point lies within the 2-cell border margin of a grid (or beyond it). *)
Definition in_border_margin {A} (g : ndarray A) (p : point) : bool :=
  let y := py_int (py p) in
  let x := py_int (px p) in
  ((y <? 2) || (x <? 2)
   || (Z.of_nat (shape0 g) - 2 <=? y) || (Z.of_nat (shape1 g) - 2 <=? x))%Z.

(** What the ingestion does to one raw cell. *)
Definition sanitized (v : fval) : fval :=
  match v with
  | PosInf => Fin 500%Q
  | NegInf => Fin (-500)%Q
  | NaN => Fin 0%Q
  | Fin q => Fin q
  end.

(** [g] is the sanitized copy of the raw array [raw]. *)
Definition sanitized_copy (raw g : ndarray fval) : Prop :=
  shape0 g = shape0 raw /\ shape1 g = shape1 raw
  /\ forall i j,
      (item raw i j = PosInf -> item g i j = Fin 500%Q)
      /\ (item raw i j = NegInf -> item g i j = Fin (-500)%Q)
      /\ (item raw i j = NaN -> item g i j = Fin 0%Q)
      /\ (forall q, item raw i j = Fin q -> item g i j = Fin q)
      /\ is_finite (item g i j) = true.

(** The scored candidates of the position tier for an instance: the rows
    its sort is applied to. *)
Definition scored_candidates (self : UseDisruptorNova)
           (enemy_units friendly_units : list Unit)
           (exclusion_mask : option (ndarray bool)) : list (point * Z) :=
  let grid := get_grid (mediator self) in
  let '(x_max, y_max) :=
    match grid with
    | Some g => (shape1 g, shape0 g)
    | None => (200, 200)
    end in
  collect_scores exclusion_mask grid enemy_units friendly_units
                 (candidate_positions enemy_units x_max y_max).

(** Frames left after one coordinator tick over a bound instance:
    [update_info] always takes one, [run_step] one more while frames remain. *)
Definition frames_after_tick (f : Z) : Z :=
  if (f - 1 <=? 0)%Z then (f - 1)%Z else (f - 2)%Z.

(** Cell (i, j) comes before cell (y, x) in row-major order. *)
Definition row_major_before (w i j y x : nat) : Prop :=
  i * w + j < y * w + x.

(** The head of a list carries the highest score of the list. *)
Definition head_dominates (l : list (point * Z)) : Prop :=
  match l with
  | [] => True
  | x :: _ => forall y, In y l -> (snd y <= snd x)%Z
  end.

(** Two states of an instance agree on its lifetime, its unit, its
    mediator and its remaining distance. *)
Definition same_lifecycle (s s' : UseDisruptorNova) : Prop :=
  frames_left s' = frames_left s
  /\ nova_unit s' = nova_unit s
  /\ mediator s' = mediator s
  /\ distance_left s' = distance_left s.


(** ** Example inputs *)

Module Examples.

(** A 6 x 6 field at the neutral baseline. *)
Definition flat6 : ndarray fval := full 6 6 (Fin 200%Q).

(** The same field with one cell of value 300 at row 3, column 3. *)
Definition peak6 : ndarray fval :=
  mkArray 6 6 (fun i j => if (i =? 3) && (j =? 3) then Fin 300%Q else Fin 200%Q).

(** A raw 1 x 3 field holding the three IEEE specials. *)
Definition specials : ndarray fval := of_rows NaN [[PosInf; NegInf; NaN]].

Definition hostile_at (x y : Q) : Unit := mkUnit 1 (x, y) 0%Q.

(** The in-game nova unit, at (3, 3). *)
Definition nova_at_33 : Unit := mkUnit 7 (3, 3)%Q (595 # 100)%Q.

Definition launcher : Disruptor :=
  mkDisruptor (mkUnit 3 (3, 2)%Q 1%Q) true (Ok true).

(** A fresh instance over the flat field. *)
Definition fresh : UseDisruptorNova := init (GridArray flat6).

(** An instance bound to its unit by [load_info]. *)
Definition loaded : UseDisruptorNova := load_info fresh nova_at_33.

(** The instance a successful [execute] returns: target set, no unit. *)
Definition launched : UseDisruptorNova :=
  snd (fst (fst (execute fresh launcher [hostile_at 2 2] [] None))).

(** A coordinator tracking the loaded instance as object 0. *)
Definition tracking : NovaManager := mkNovaManager ArgOther ArgOther [0].
Definition heap : store := mkStore (fun _ => loaded) 1.

(** Modelled from the spec: the ClaimRegistry operations, which this
    repository does not define.  Unregistering drops a position,
    registering adds it, and the exclusion mask covers the cells closer
    than 5 units to a claim. *)
Definition registry (speed : Q) (claimed : list point) : manager :=
  mkManager
    (Some speed) (Some claimed)
    (Some (fun p c =>
             (Ok tt, option_map (filter (fun t => negb (point_eqb t p))) c)))
    (Some (fun p c =>
             (Ok true, Some (p :: match c with Some l => l | None => [] end))))
    (Some (fun c _ =>
             Ok (fun i j =>
                   existsb (fun t => sqrt_lt (dist2 (cell_point i j) t) min_spacing)
                           (match c with Some l => l | None => [] end)))).

(** An in-flight nova at (3, 3) holding the claim (2, 2) while another
    nova holds (3, 3): every cell of the field is within 5 units of the
    other claim. *)
Definition in_flight : UseDisruptorNova :=
  set_best_target_pos loaded (Some (2, 2)%Q).

Definition crowded : manager := registry (595 # 100) [(2, 2)%Q; (3, 3)%Q].

(** An in-flight nova at (3, 3) over the field with the 300 cell, holding
    the claim (2, 2), and a registry that knows no other claim. *)
Definition in_flight_peak : UseDisruptorNova :=
  set_best_target_pos (load_info (init (GridArray peak6)) nova_at_33)
                      (Some (2, 2)%Q).

Definition lone : manager := registry (595 # 100) [(2, 2)%Q].

End Examples.

(** * Properties *)

(** ** Ingestion of the field *)

Lemma replace_nan_replace_inf (v : fval) :
  replace_nan (replace_inf v) = sanitized v.
Proof. destruct v; reflexivity. Qed.

Lemma sanitized_finite (v : fval) : is_finite (sanitized v) = true.
Proof. destruct v; reflexivity. Qed.

(** C4 as stated fails: a NaN cell comes back as 0.0, whose magnitude is
    not 500. *)
Lemma get_grid_nan_becomes_zero :
  exists g, get_grid (GridArray Examples.specials) = Some g
            /\ item Examples.specials 0 2 = NaN
            /\ item g 0 2 = Fin 0%Q
            /\ ~ (Qabs 0 == 500)%Q.
Proof.
  eexists. split; [reflexivity|].
  repeat split. discriminate.
Qed.

(** C4, amended: a grid returned by [get_grid] is the collaborator's array,
    same shape, with every +inf cell replaced by 500, every -inf cell by
    -500, every NaN cell by 0 and every other cell kept; all its cells are
    finite. *)
Theorem get_grid_sanitizes (m : tactical_grid) (g : ndarray fval) :
  get_grid m = Some g ->
  exists raw, m = GridArray raw /\ sanitized_copy raw g.
Proof.
  destruct m as [e| |raw]; simpl; try discriminate.
  intros H. injection H as <-.
  exists raw. split; [reflexivity|].
  unfold sanitized_copy. simpl. repeat split; try rewrite replace_nan_replace_inf.
  - intros ->. reflexivity.
  - intros ->. reflexivity.
  - intros ->. reflexivity.
  - intros q ->. reflexivity.
  - apply sanitized_finite.
Qed.

Lemma get_grid_sanitizes_witness :
  exists raw,
    GridArray Examples.specials = GridArray raw
    /\ sanitized_copy raw (amap replace_nan (amap replace_inf Examples.specials)).
Proof.
  exact (@get_grid_sanitizes (GridArray Examples.specials) _ eq_refl).
Defined.

(** ** Acceptance of the best cell *)

Lemma Qlt_bool_iff (a b : Q) : Qlt_bool a b = true <-> (a < b)%Q.
Proof.
  unfold Qlt_bool. rewrite negb_true_iff.
  split; intros H.
  - apply Qnot_le_lt. intros Hle. apply Qle_bool_iff in Hle. congruence.
  - destruct (Qle_bool b a) eqn:E; [|reflexivity].
    apply Qle_bool_iff in E. exfalso. exact (Qlt_not_le _ _ H E).
Qed.

Lemma acceptable_iff (v : fval) :
  acceptable v = true <-> exists q, v = Fin q /\ (210 < q)%Q /\ (q < 600)%Q.
Proof.
  unfold acceptable. rewrite andb_true_iff.
  destruct v as [|q| |]; simpl.
  - split; [intros [H _]; discriminate | intros [q [H _]]; discriminate].
  - fold (Qlt_bool 210 q). fold (Qlt_bool q 600). rewrite !Qlt_bool_iff.
    split.
    + intros [H1 H2]. exists q. auto.
    + intros [q' [E [H1 H2]]]. injection E as ->. auto.
  - split; [intros [_ H]; discriminate | intros [q [H _]]; discriminate].
  - split; [intros [H _]; discriminate | intros [q [H _]]; discriminate].
Qed.

(** C7: the grid tier accepts the maximum-value cell exactly when its value
    lies strictly between 210 and 600: 210.0 and 600.0 are rejected, 210.01
    and 599.99 are accepted, and the tier yields a target exactly when the
    best cell of the enhanced grid passes this test. *)
Theorem grid_tier_acceptance_strict :
  acceptable (Fin 210%Q) = false
  /\ acceptable (Fin (21001 # 100)%Q) = true
  /\ acceptable (Fin 600%Q) = false
  /\ acceptable (Fin (59999 # 100)%Q) = true
  /\ (forall q, acceptable (Fin q) = true <-> (210 < q)%Q /\ (q < 600)%Q)
  /\ (forall self working_grid enemy_units friendly_units,
        grid_tier self working_grid enemy_units friendly_units <> None
        <-> exists y x q,
            best_cell working_grid enemy_units friendly_units = Ok (y, x, Fin q)
            /\ (210 < q)%Q /\ (q < 600)%Q).
Proof.
  do 4 (split; [reflexivity|]).
  split.
  - intros q. rewrite acceptable_iff. split.
    + intros [q' [E H]]. injection E as ->. exact H.
    + intros H. exists q. split; [reflexivity|exact H].
  - intros self working_grid enemy_units friendly_units. unfold grid_tier. split.
    + destruct (best_cell working_grid enemy_units friendly_units)
        as [[[y x] v]|e]; [|intros H; contradiction].
      destruct (acceptable v) eqn:A; [|intros H; contradiction].
      intros _. apply acceptable_iff in A. destruct A as [q [-> [H1 H2]]].
      exists y, x, q. auto.
    + intros [y [x [q [E [H1 H2]]]]]. rewrite E.
      assert (A : acceptable (Fin q) = true) by (apply acceptable_iff; exists q; auto).
      rewrite A. discriminate.
Qed.

(** ** No hostiles *)

(** C8: with an empty hostile list [select_best_target] returns None at
    once, whatever the field, the friendlies and the mask are; the instance
    is left as it was, so no tier ran. *)
Theorem select_best_target_no_hostiles
        (self : UseDisruptorNova) (friendly_units : list Unit)
        (exclusion_mask : option (ndarray bool)) :
  select_best_target self [] friendly_units exclusion_mask = (None, self).
Proof. reflexivity. Qed.

(** ** The coordinator's wrapping path *)

(** The constructor takes two arguments after [self]. *)
Lemma construct_four_arguments (a b c d : pyarg) :
  construct [a; b; c; d] = Raise TypeError.
Proof. destruct a; reflexivity. Qed.

(** C10: for an object without [update_info], [add_nova] raises TypeError
    (the constructor is called with four arguments and takes two) and
    leaves [active_novas], and the store, unchanged. *)
Theorem add_nova_without_update_info
        (m : NovaManager) (st : store) (nova : pyobj) :
  has_update_info nova = false ->
  add_nova m st nova = (Raise TypeError, m, st).
Proof.
  intros H. unfold add_nova.
  destruct nova as [r|u|]; simpl in H; try discriminate;
    rewrite construct_four_arguments; reflexivity.
Qed.

Lemma add_nova_without_update_info_witness :
  has_update_info (ObjUnit Examples.nova_at_33) = false
  /\ add_nova Examples.tracking Examples.heap (ObjUnit Examples.nova_at_33)
     = (Raise TypeError, Examples.tracking, Examples.heap).
Proof.
  split; [reflexivity|].
  apply (@add_nova_without_update_info Examples.tracking Examples.heap
           (ObjUnit Examples.nova_at_33)).
  reflexivity.
Defined.

(** ** Retargeting against the repository's own coordinator *)

(** C9: with a target and a unit set, [update_target_position] called with
    an instance of the NovaManager class returns False and leaves the
    instance, hence [best_target_pos], and the manager unchanged: the
    missing [nova_speed] attribute is absorbed by the outer handler. *)
Theorem update_target_position_NovaManager
        (self : UseDisruptorNova) (enemy_units friendly_units : list Unit)
        (m : NovaManager) :
  best_target_pos self <> None ->
  nova_unit self <> None ->
  update_target_position self enemy_units friendly_units (as_manager m)
  = (false, self, as_manager m).
Proof.
  intros Hp Hu. unfold update_target_position.
  destruct (best_target_pos self) as [own|]; [|contradiction].
  destruct (nova_unit self) as [u|]; [|contradiction].
  destruct (negb (point_truthy own)); [reflexivity|].
  destruct (frames_left self <? 5)%Z; reflexivity.
Qed.

Lemma update_target_position_NovaManager_witness :
  best_target_pos Examples.in_flight <> None
  /\ nova_unit Examples.in_flight <> None
  /\ update_target_position Examples.in_flight [Examples.hostile_at 4 4] []
                            (as_manager Examples.tracking)
     = (false, Examples.in_flight, as_manager Examples.tracking).
Proof.
  assert (Hp : best_target_pos Examples.in_flight <> None) by (simpl; discriminate).
  assert (Hu : nova_unit Examples.in_flight <> None) by (simpl; discriminate).
  split; [exact Hp|]. split; [exact Hu|].
  exact (@update_target_position_NovaManager Examples.in_flight
           [Examples.hostile_at 4 4] [] Examples.tracking Hp Hu).
Defined.

(** ** The per-tick step of an instance without a unit *)

(** With no unit bound the retargeting returns at its first test. *)
Lemma update_target_position_unbound
      (self : UseDisruptorNova) (enemy_units friendly_units : list Unit)
      (m : manager) :
  nova_unit self = None ->
  update_target_position self enemy_units friendly_units m = (false, self, m).
Proof.
  intros Hu. unfold update_target_position. rewrite Hu.
  destruct (best_target_pos self); reflexivity.
Qed.

(** An instance without a unit never issues a command from [run_step]. *)
Lemma run_step_unbound_no_command
      (self : UseDisruptorNova) (enemy_units friendly_units : list Unit)
      (nova_manager : option manager) :
  nova_unit self = None ->
  snd (run_step self enemy_units friendly_units nova_manager) = [].
Proof.
  intros Hu. unfold run_step.
  destruct (frames_left self <=? 0)%Z; [reflexivity|].
  set (s1 := set_frames_left self (frames_left self - 1)).
  assert (Hu1 : nova_unit s1 = None) by exact Hu.
  destruct nova_manager as [m|].
  - rewrite (update_target_position_unbound s1 enemy_units friendly_units m Hu1).
    destruct ((frames_left s1 mod 22 =? 0)%Z && has_influence_grid s1).
    + unfold run_debug. rewrite Hu1. reflexivity.
    + destruct (best_target_pos s1); [rewrite Hu1|]; reflexivity.
  - destruct ((frames_left s1 mod 22 =? 0)%Z && has_influence_grid s1).
    + unfold run_debug. rewrite Hu1. reflexivity.
    + destruct (best_target_pos s1); [rewrite Hu1|]; reflexivity.
Qed.

(** C2, what the code does: a live instance that has a target and no unit
    (the state [execute] leaves behind) gets its tick counted, issues no
    command, and then [run_step] raises AttributeError on
    [self.unit.position] instead of completing. *)
Theorem run_step_unbound_raises
        (self : UseDisruptorNova) (enemy_units friendly_units : list Unit)
        (nova_manager : option manager) (target : point) :
  nova_unit self = None ->
  best_target_pos self = Some target ->
  (0 < frames_left self)%Z ->
  run_step self enemy_units friendly_units nova_manager
  = (Raise AttributeError, set_frames_left self (frames_left self - 1),
     nova_manager, []).
Proof.
  intros Hu Hp Hf. unfold run_step.
  destruct (frames_left self <=? 0)%Z eqn:E; [apply Z.leb_le in E; lia|].
  set (s1 := set_frames_left self (frames_left self - 1)).
  assert (Hu1 : nova_unit s1 = None) by exact Hu.
  assert (Hp1 : best_target_pos s1 = Some target) by exact Hp.
  destruct nova_manager as [m|].
  - rewrite (update_target_position_unbound s1 enemy_units friendly_units m Hu1).
    destruct ((frames_left s1 mod 22 =? 0)%Z && has_influence_grid s1).
    + unfold run_debug. rewrite Hu1. reflexivity.
    + rewrite Hp1, Hu1. reflexivity.
  - destruct ((frames_left s1 mod 22 =? 0)%Z && has_influence_grid s1).
    + unfold run_debug. rewrite Hu1. reflexivity.
    + rewrite Hp1, Hu1. reflexivity.
Qed.

Lemma run_step_unbound_raises_witness :
  nova_unit Examples.launched = None
  /\ best_target_pos Examples.launched = Some (2, 2)%Q
  /\ (0 < frames_left Examples.launched)%Z
  /\ run_step Examples.launched [Examples.hostile_at 2 2] [] None
     = (Raise AttributeError,
        set_frames_left Examples.launched (frames_left Examples.launched - 1),
        None, []).
Proof.
  assert (Hu : nova_unit Examples.launched = None) by reflexivity.
  assert (Hp : best_target_pos Examples.launched = Some (2, 2)%Q) by reflexivity.
  assert (Hf : (0 < frames_left Examples.launched)%Z) by reflexivity.
  split; [exact Hu|]. split; [exact Hp|]. split; [exact Hf|].
  exact (@run_step_unbound_raises Examples.launched [Examples.hostile_at 2 2] []
           None (2, 2)%Q Hu Hp Hf).
Defined.

(** ** Frames counted per tick *)

(** Without a manager, [run_step] on a live bound instance takes one frame
    and returns normally. *)
Lemma run_step_bound_no_manager
      (self : UseDisruptorNova) (u : Unit) (enemy_units friendly_units : list Unit) :
  nova_unit self = Some u ->
  (0 < frames_left self)%Z ->
  exists r cmds,
    run_step self enemy_units friendly_units None
    = (Ok r, set_frames_left self (frames_left self - 1), None, cmds).
Proof.
  intros Hu Hf. unfold run_step.
  destruct (frames_left self <=? 0)%Z eqn:E; [apply Z.leb_le in E; lia|].
  set (s1 := set_frames_left self (frames_left self - 1)).
  assert (Hu1 : nova_unit s1 = Some u) by exact Hu.
  assert (D : (if (frames_left s1 mod 22 =? 0)%Z && has_influence_grid s1
               then run_debug s1 else Ok tt) = Ok tt).
  { unfold run_debug. rewrite Hu1.
    destruct ((frames_left s1 mod 22 =? 0)%Z && has_influence_grid s1); reflexivity. }
  rewrite D.
  destruct (best_target_pos s1) as [t|]; [rewrite Hu1|].
  - destruct (negb (point_eqb t (position u))); do 2 eexists; reflexivity.
  - do 2 eexists; reflexivity.
Qed.

(** One pass of the coordinator's loop body over a bound instance takes two
    frames: one in [update_info], one in [run_step]. *)
Lemma loop_body_takes_two_frames
      (self : UseDisruptorNova) (u : Unit) (enemy_units friendly_units : list Unit) :
  nova_unit self = Some u ->
  (2 <= frames_left self)%Z ->
  exists s1 s2 r cmds,
    update_info self = (Ok tt, s1)
    /\ run_step s1 enemy_units friendly_units None = (Ok r, s2, None, cmds)
    /\ frames_left s1 = (frames_left self - 1)%Z
    /\ frames_left s2 = (frames_left self - 2)%Z.
Proof.
  intros Hu Hf.
  set (s0 := set_frames_left self (frames_left self - 1)).
  set (s1 := set_distance_left s0 (calculate_distance_left s0 (movement_speed u))).
  assert (Hu1 : nova_unit s1 = Some u) by exact Hu.
  assert (Hf1 : (0 < frames_left s1)%Z) by (simpl; lia).
  destruct (run_step_bound_no_manager s1 enemy_units friendly_units Hu1 Hf1)
    as [r [cmds R]].
  exists s1, (set_frames_left s1 (frames_left s1 - 1)), r, cmds.
  split.
  - unfold update_info. fold s0.
    replace (nova_unit s0) with (Some u) by (symmetry; exact Hu). reflexivity.
  - split; [exact R|]. simpl. lia.
Qed.

(** C1, what the code does: the coordinator's tick takes two frames from a
    tracked instance, so an instance loaded with 48 frames is still listed
    after 23 ticks and is removed by the 24th. *)
Theorem update_takes_two_frames_per_tick :
  frames_left Examples.loaded = 48%Z
  /\ (let '(r, m, st) := ticks 1 Examples.tracking Examples.heap [] [] in
      r = Ok tt /\ active_novas m = [0] /\ frames_left (objects st 0) = 46%Z)
  /\ (let '(r, m, st) := ticks 23 Examples.tracking Examples.heap [] [] in
      r = Ok tt /\ active_novas m = [0] /\ frames_left (objects st 0) = 2%Z)
  /\ (let '(r, m, st) := ticks 24 Examples.tracking Examples.heap [] [] in
      r = Ok tt /\ active_novas m = [] /\ frames_left (objects st 0) = 0%Z).
Proof.
  split; [reflexivity|].
  split; [vm_compute; repeat split|].
  split; vm_compute; repeat split.
Qed.

(** ** A mask of the wrong shape *)

(** C3 as stated fails: over the field with a 300 cell at (3, 3) and a
    hostile at (2, 2), the selector without a mask takes the grid tier and
    returns (3, 3); with a 3 x 3 mask it returns the position tier's (2, 2). *)
Lemma mismatched_mask_differs_from_no_mask :
  let self := init (GridArray Examples.peak6) in
  let hostiles := [Examples.hostile_at 2 2] in
  let bad_mask := full 3 3 false in
  same_shape bad_mask Examples.peak6 = false
  /\ fst (select_best_target self hostiles [] None) = Some (3, 3)%Q
  /\ fst (select_best_target self hostiles [] (Some bad_mask)) = Some (2, 2)%Q
  /\ fst (select_best_target self hostiles [] (Some bad_mask))
     <> fst (select_best_target self hostiles [] None).
Proof.
  cbv zeta.
  assert (A : fst (select_best_target (init (GridArray Examples.peak6))
                     [Examples.hostile_at 2 2] [] None) = Some (3, 3)%Q)
    by (vm_compute; reflexivity).
  assert (B : fst (select_best_target (init (GridArray Examples.peak6))
                     [Examples.hostile_at 2 2] [] (Some (full 3 3 false)))
              = Some (2, 2)%Q)
    by (vm_compute; reflexivity).
  split; [reflexivity|]. split; [exact A|]. split; [exact B|].
  rewrite A, B. discriminate.
Qed.

(** C3, amended: with hostiles present and a non-empty grid, a mask whose
    shape differs from the grid's sends [select_best_target] to the
    position-sampling tier, called with that same mask; its result is the
    selector's result, and nothing is raised. *)
Theorem select_best_target_mismatched_mask
        (self : UseDisruptorNova) (enemy_units friendly_units : list Unit)
        (mask : ndarray bool) (g : ndarray fval) :
  enemy_units <> [] ->
  get_grid (mediator self) = Some g ->
  size g <> 0 ->
  same_shape mask g = false ->
  select_best_target self enemy_units friendly_units (Some mask)
  = _select_target_position_based self enemy_units friendly_units (Some mask).
Proof.
  intros He Hg Hs Hm. unfold select_best_target.
  destruct enemy_units as [|e es]; [contradiction|].
  rewrite Hg.
  change (size (amap replace_inf g)) with (size g).
  destruct (size g =? 0) eqn:E; [apply Nat.eqb_eq in E; contradiction|].
  change (same_shape mask (amap replace_inf g)) with (same_shape mask g).
  rewrite Hm. reflexivity.
Qed.

Lemma select_best_target_mismatched_mask_witness :
  let self := init (GridArray Examples.peak6) in
  let g := amap replace_nan (amap replace_inf Examples.peak6) in
  [Examples.hostile_at 2 2] <> []
  /\ get_grid (mediator self) = Some g
  /\ size g <> 0
  /\ same_shape (full 3 3 false) g = false
  /\ select_best_target self [Examples.hostile_at 2 2] [] (Some (full 3 3 false))
     = _select_target_position_based self [Examples.hostile_at 2 2] []
                                     (Some (full 3 3 false)).
Proof.
  cbv zeta.
  assert (He : [Examples.hostile_at 2 2] <> []) by discriminate.
  assert (Hs : size (amap replace_nan (amap replace_inf Examples.peak6)) <> 0)
    by (simpl; discriminate).
  split; [exact He|]. split; [reflexivity|]. split; [exact Hs|].
  split; [reflexivity|].
  exact (@select_best_target_mismatched_mask (init (GridArray Examples.peak6))
           [Examples.hostile_at 2 2] [] (full 3 3 false) _ He eq_refl Hs eq_refl).
Defined.

(** ** The border margin *)

Lemma py_int_inject_Z (z : Z) : py_int (inject_Z z) = z.
Proof. unfold py_int, inject_Z. simpl. apply Z.quot_1_r. Qed.

Lemma shape_boost_enemies (w : ndarray fval) (enemy_units : list Unit) :
  shape0 (boost_enemies w enemy_units) = shape0 w
  /\ shape1 (boost_enemies w enemy_units) = shape1 w.
Proof.
  unfold boost_enemies.
  destruct (np_any (enemy_positions w enemy_units)); split; reflexivity.
Qed.

Lemma shape_penalise_friendlies (w : ndarray fval) (friendly_units : list Unit) :
  shape0 (penalise_friendlies w friendly_units) = shape0 w
  /\ shape1 (penalise_friendlies w friendly_units) = shape1 w.
Proof. destruct friendly_units; split; reflexivity. Qed.

Lemma shape_enhanced_grid (w : ndarray fval) (enemy_units friendly_units : list Unit) :
  shape0 (enhanced_grid w enemy_units friendly_units) = shape0 w
  /\ shape1 (enhanced_grid w enemy_units friendly_units) = shape1 w.
Proof.
  unfold enhanced_grid. simpl.
  destruct (shape_penalise_friendlies (boost_enemies w enemy_units) friendly_units)
    as [-> ->].
  apply shape_boost_enemies.
Qed.

(** A cell on the edge of the enhanced grid holds -inf. *)
Lemma enhanced_grid_edge (w : ndarray fval) (enemy_units friendly_units : list Unit)
      (i j : nat) :
  on_edge (shape0 w) (shape1 w) i j = true ->
  item (enhanced_grid w enemy_units friendly_units) i j = NegInf.
Proof.
  intros H. unfold enhanced_grid. simpl.
  destruct (shape_penalise_friendlies (boost_enemies w enemy_units) friendly_units)
    as [-> ->].
  destruct (shape_boost_enemies w enemy_units) as [-> ->].
  rewrite H. reflexivity.
Qed.

(** The cell the grid tier accepts is off the edge and inside the grid. *)
Lemma best_cell_accepted_interior
      (w : ndarray fval) (enemy_units friendly_units : list Unit)
      (y x : nat) (v : fval) :
  best_cell w enemy_units friendly_units = Ok (y, x, v) ->
  acceptable v = true ->
  on_edge (shape0 w) (shape1 w) y x = false.
Proof.
  unfold best_cell. intros H A.
  destruct (np_argmax (enhanced_grid w enemy_units friendly_units)) as [k|e];
    [|discriminate].
  destruct (np_unravel_index k (enhanced_grid w enemy_units friendly_units))
    as [[y' x']|e]; [|discriminate].
  injection H as -> -> <-.
  destruct (on_edge (shape0 w) (shape1 w) y x) eqn:E; [|reflexivity].
  change (acceptable (item (enhanced_grid w enemy_units friendly_units) y x) = true)
    in A.
  rewrite (enhanced_grid_edge w enemy_units friendly_units y x E) in A.
  discriminate.
Qed.

Lemma on_edge_margin {A} (g : ndarray A) (y x : nat) :
  on_edge (shape0 g) (shape1 g) y x = false ->
  in_border_margin g (cell_point y x) = false.
Proof.
  unfold on_edge, in_border_margin, cell_point, edge_width, px, py. simpl.
  rewrite !py_int_inject_Z. rewrite !orb_false_iff.
  intros [[[H1 H2] H3] H4].
  apply Nat.ltb_ge in H1, H2. apply Nat.leb_gt in H3, H4.
  repeat split.
  - apply Z.ltb_ge. lia.
  - apply Z.ltb_ge. lia.
  - apply Z.leb_gt. lia.
  - apply Z.leb_gt. lia.
Qed.

Lemma grid_tier_interior
      (self self' : UseDisruptorNova) (w : ndarray fval)
      (enemy_units friendly_units : list Unit) (p : point) :
  grid_tier self w enemy_units friendly_units = Some (p, self') ->
  in_border_margin w p = false.
Proof.
  unfold grid_tier.
  destruct (best_cell w enemy_units friendly_units) as [[[y x] v]|e] eqn:B;
    [|discriminate].
  destruct (acceptable v) eqn:A; [|discriminate].
  intros H. injection H as <- _.
  apply on_edge_margin.
  exact (best_cell_accepted_interior _ _ _ B A).
Qed.

(** C5 as stated fails: over the flat field, a hostile at (1, 0) yields no
    acceptable grid cell and the position tier returns the hostile's own
    position, which lies in the border margin. *)
Lemma select_best_target_returns_border_position :
  fst (select_best_target Examples.fresh [Examples.hostile_at 1 0] [] None)
  = Some (1, 0)%Q
  /\ in_border_margin Examples.flat6 (1, 0)%Q = true.
Proof. split; vm_compute; reflexivity. Qed.

(** C5, amended: the grid tier never yields a cell of the 2-cell border
    margin, whatever value the cell holds; a position of the margin that
    [select_best_target] returns is the result of the position-sampling
    tier, which applies no margin. *)
Theorem border_target_comes_from_position_tier
        (self self' : UseDisruptorNova) (enemy_units friendly_units : list Unit)
        (exclusion_mask : option (ndarray bool)) (g : ndarray fval) (p : point) :
  get_grid (mediator self) = Some g ->
  select_best_target self enemy_units friendly_units exclusion_mask = (Some p, self') ->
  in_border_margin g p = true ->
  _select_target_position_based self enemy_units friendly_units exclusion_mask
  = (Some p, self').
Proof.
  intros Hg Hs Hb. unfold select_best_target in Hs.
  destruct enemy_units as [|e es]; [discriminate|].
  rewrite Hg in Hs.
  destruct (size (amap replace_inf g) =? 0); [discriminate|].
  destruct exclusion_mask as [m|].
  - destruct (same_shape m (amap replace_inf g)); [|exact Hs].
    destruct (grid_tier self (apply_exclusion (amap replace_inf g) m) (e :: es)
                        friendly_units) as [[q s]|] eqn:T; [|exact Hs].
    injection Hs as -> ->.
    apply grid_tier_interior in T.
    change (in_border_margin (apply_exclusion (amap replace_inf g) m) p)
      with (in_border_margin g p) in T.
    congruence.
  - destruct (grid_tier self (amap replace_inf g) (e :: es) friendly_units)
      as [[q s]|] eqn:T; [|exact Hs].
    injection Hs as -> ->.
    apply grid_tier_interior in T.
    change (in_border_margin (amap replace_inf g) p)
      with (in_border_margin g p) in T.
    congruence.
Qed.

Lemma border_target_comes_from_position_tier_witness :
  let r := select_best_target Examples.fresh [Examples.hostile_at 1 0] [] None in
  get_grid (mediator Examples.fresh)
  = Some (amap replace_nan (amap replace_inf Examples.flat6))
  /\ r = (Some (1, 0)%Q, snd r)
  /\ in_border_margin (amap replace_nan (amap replace_inf Examples.flat6)) (1, 0)%Q
     = true
  /\ _select_target_position_based Examples.fresh [Examples.hostile_at 1 0] [] None
     = (Some (1, 0)%Q, snd r).
Proof.
  cbv zeta.
  assert (Hs : select_best_target Examples.fresh [Examples.hostile_at 1 0] [] None
               = (Some (1, 0)%Q,
                  snd (select_best_target Examples.fresh
                         [Examples.hostile_at 1 0] [] None)))
    by (vm_compute; reflexivity).
  assert (Hb : in_border_margin (amap replace_nan (amap replace_inf Examples.flat6))
                                (1, 0)%Q = true)
    by (vm_compute; reflexivity).
  split; [reflexivity|]. split; [exact Hs|]. split; [exact Hb|].
  exact (@border_target_comes_from_position_tier Examples.fresh _
           [Examples.hostile_at 1 0] [] None _ (1, 0)%Q eq_refl Hs Hb).
Defined.

(** ** Switching targets *)

(** The comparison replaces the target only by a significantly better
    candidate that keeps its distance from the other claims. *)
Lemma decide_switch_guarded
      (self self' : UseDisruptorNova) (grid : ndarray fval) (m m' : manager)
      (new_target : option point) (new_influence : option fval) (b : bool) :
  decide_switch self grid m new_target new_influence = (b, self', m') ->
  best_target_pos self' <> best_target_pos self ->
  exists cur nt c n,
    best_target_pos self = Some cur
    /\ new_target = Some nt
    /\ best_target_pos self' = Some nt
    /\ influence_at grid cur = Ok c
    /\ significant (improvement c n) = true
    /\ too_close m cur nt = false.
Proof.
  unfold decide_switch. intros H D.
  destruct new_target as [nt|];
    [|injection H as _ <- _; contradiction].
  destruct (best_target_pos self) as [cur|] eqn:P;
    [|injection H as _ <- _; rewrite P in D; contradiction].
  destruct (point_truthy nt && point_truthy cur);
    [|injection H as _ <- _; rewrite P in D; contradiction].
  destruct (influence_at grid cur) as [c|e] eqn:C;
    [|injection H as _ <- _; rewrite P in D; contradiction].
  destruct (match new_influence with
            | Some v => Ok v
            | None => influence_at grid nt
            end) as [n|e];
    [|injection H as _ <- _; rewrite P in D; contradiction].
  destruct (significant (improvement c n)) eqn:S;
    [|injection H as _ <- _; simpl in D; rewrite P in D; contradiction].
  destruct (too_close m cur nt) eqn:T;
    [injection H as _ <- _; simpl in D; rewrite P in D; contradiction|].
  injection H as _ <- _.
  exists cur, nt, c, n. repeat split; auto.
Qed.

(** When the spacing test passes, every other claim is at least 5.0 away. *)
Lemma too_close_spacing (m : manager) (own p : point) (targets : list point) :
  too_close m own p = false ->
  current_targets m = Some targets ->
  forall t, In t targets -> point_eqb t own = false ->
            sqrt_lt (dist2 p t) min_spacing = false.
Proof.
  unfold too_close. intros H C t Ht Ho. rewrite C in H.
  destruct targets as [|t0 ts]; [contradiction|].
  unfold too_close_to in H.
  destruct (sqrt_lt (dist2 p t) min_spacing) eqn:E; [|reflexivity].
  assert (X : existsb (fun target_pos => negb (point_eqb target_pos own)
                                        && sqrt_lt (dist2 p target_pos) min_spacing)
                      (t0 :: ts) = true).
  { apply existsb_exists. exists t. split; [exact Ht|]. rewrite Ho, E. reflexivity. }
  congruence.
Qed.

(** C6, what the code does: an in-flight nova holding (2, 2) while another
    claim at (3, 3) excludes every cell finds no reachable cell, falls back
    to [select_best_target], and that call stores (4, 4) as
    [best_target_pos].  The method then returns False: the stored target is
    compared with itself (no improvement), it is 1.41 units from the other
    claim, and it is what gets re-registered in place of (2, 2). *)
Theorem retarget_fallback_replaces_target :
  (let '(b, s, m) :=
     update_target_position Examples.in_flight [Examples.hostile_at 4 4] []
                            Examples.crowded in
   best_target_pos Examples.in_flight = Some (2, 2)%Q
   /\ current_targets Examples.crowded = Some [(2, 2)%Q; (3, 3)%Q]
   /\ b = false
   /\ best_target_pos s = Some (4, 4)%Q
   /\ current_targets m = Some [(4, 4)%Q; (3, 3)%Q])
  /\ too_close_to [(3, 3)%Q] (2, 2)%Q (4, 4)%Q = true
  /\ exists g,
      get_grid (mediator Examples.in_flight) = Some g
      /\ influence_at g (2, 2)%Q = Ok (Fin 200%Q)
      /\ influence_at g (4, 4)%Q = Ok (Fin 200%Q)
      /\ significant (improvement (Fin 200%Q) (Fin 200%Q)) = false.
Proof.
  split; [vm_compute; repeat split|].
  split; [reflexivity|].
  eexists. split; [reflexivity|].
  repeat split.
Qed.

(** * Further properties of the embedded code *)

(** ** Order on floats without NaN *)

Lemma fle_refl (a : fval) : a <> NaN -> fle a a = true.
Proof.
  destruct a; simpl; try reflexivity; [|congruence].
  intros _. apply Qle_bool_iff. apply Qle_refl.
Qed.

Lemma fle_trans (a b c : fval) :
  fle a b = true -> fle b c = true -> fle a c = true.
Proof.
  destruct a, b, c; simpl; try reflexivity; try discriminate.
  intros H1 H2. apply Qle_bool_iff in H1, H2. apply Qle_bool_iff.
  eapply Qle_trans; eassumption.
Qed.

Lemma fle_total (a b : fval) :
  a <> NaN -> b <> NaN -> fle a b = false -> flt b a = true.
Proof.
  destruct a, b; simpl; try reflexivity; try discriminate; try congruence.
  intros _ _ H. rewrite H. reflexivity.
Qed.

Lemma flt_fle (a b : fval) : flt a b = true -> fle a b = true.
Proof.
  destruct a, b; simpl; try reflexivity; try discriminate.
  intros H. apply negb_true_iff in H. apply Qle_bool_iff.
  destruct (Qlt_le_dec q q0) as [L|L].
  - apply Qlt_le_weak. exact L.
  - apply Qle_bool_iff in L. congruence.
Qed.

Lemma fle_flt_trans (a b c : fval) :
  fle a b = true -> flt b c = true -> flt a c = true.
Proof.
  destruct a, b, c; simpl; try reflexivity; try discriminate.
  intros H1 H2. apply Qle_bool_iff in H1. apply negb_true_iff in H2.
  apply negb_true_iff. destruct (Qle_bool q1 q) eqn:E; [|reflexivity].
  apply Qle_bool_iff in E.
  assert (X : (q1 <= q0)%Q) by (eapply Qle_trans; eassumption).
  apply Qle_bool_iff in X. congruence.
Qed.

Lemma flt_trans (a b c : fval) :
  flt a b = true -> flt b c = true -> flt a c = true.
Proof.
  intros H1 H2. eapply fle_flt_trans; [apply flt_fle; exact H1|exact H2].
Qed.

(** ** The maximum search *)

Section Argmax.

Variable f : nat -> fval.
Hypothesis no_nan : forall k, f k <> NaN.

Lemma argmax_loop_max (ks : list nat) :
  forall mi,
    let r := argmax_loop f ks mi (f mi) in
    (r = mi \/ In r ks)
    /\ fle (f mi) (f r) = true
    /\ forall k, In k ks -> fle (f k) (f r) = true.
Proof.
  induction ks as [|k ks IH]; intros mi; simpl.
  - split; [left; reflexivity|]. split; [apply fle_refl, no_nan|].
    intros k [].
  - destruct (np_isnan (f mi)) eqn:N.
    { exfalso. apply (@no_nan mi). destruct (f mi); try discriminate. reflexivity. }
    destruct (fle (f k) (f mi)) eqn:E.
    + destruct (IH mi) as [H1 [H2 H3]].
      split; [destruct H1; auto|]. split; [exact H2|].
      intros k' [<-|Hk]; [eapply fle_trans; eassumption|auto].
    + destruct (IH k) as [H1 [H2 H3]].
      assert (L : fle (f mi) (f k) = true)
        by (apply flt_fle, fle_total; auto).
      split; [destruct H1; auto|].
      split; [eapply fle_trans; eassumption|].
      intros k' [<-|Hk]; [exact H2|auto].
Qed.

Lemma argmax_loop_first (ks : list nat) :
  forall mi,
    let r := argmax_loop f ks mi (f mi) in
    r = mi
    \/ exists l1 l2,
        ks = l1 ++ r :: l2
        /\ (forall k, In k l1 -> flt (f k) (f r) = true)
        /\ flt (f mi) (f r) = true.
Proof.
  induction ks as [|k ks IH]; intros mi; simpl.
  - left. reflexivity.
  - destruct (np_isnan (f mi)) eqn:N; [left; reflexivity|].
    destruct (fle (f k) (f mi)) eqn:E.
    + destruct (IH mi) as [H|[l1 [l2 [H1 [H2 H3]]]]]; [left; exact H|].
      right. exists (k :: l1), l2. split; [simpl; f_equal; exact H1|].
      split; [|exact H3].
      intros k' [<-|Hk]; [eapply fle_flt_trans; eassumption|auto].
    + assert (L : flt (f mi) (f k) = true) by (apply fle_total; auto).
      destruct (IH k) as [H|[l1 [l2 [H1 [H2 H3]]]]].
      * right. exists [], ks. rewrite H. split; [reflexivity|].
        split; [intros k' []|exact L].
      * right. exists (k :: l1), l2. split; [simpl; f_equal; exact H1|].
        split; [|eapply flt_trans; eassumption].
        intros k' [<-|Hk]; [exact H3|auto].
Qed.

End Argmax.

Lemma seq_split_before (n r : nat) (l1 l2 : list nat) :
  seq 1 n = l1 ++ r :: l2 ->
  forall k, 1 <= k -> k < r -> In k l1.
Proof.
  intros H k Hk1 Hk2.
  assert (Hr : In r (seq 1 n)) by (rewrite H; apply in_or_app; right; left; reflexivity).
  apply in_seq in Hr.
  assert (Hin : In k (seq 1 n)) by (apply in_seq; lia).
  rewrite H in Hin. apply in_app_or in Hin. destruct Hin as [Hin|[->|Hin]].
  - exact Hin.
  - lia.
  - exfalso.
    assert (S : StronglySorted lt (seq 1 n)).
    { clear. generalize 1. induction n; intros s; simpl; constructor.
      - apply IHn.
      - apply Forall_forall. intros x Hx. apply in_seq in Hx. lia. }
    rewrite H in S. clear H.
    induction l1 as [|a l1 IH]; simpl in S.
    + inversion S as [|? ? _ F]; subst.
      rewrite Forall_forall in F. specialize (F k Hin). lia.
    + inversion S; subst. auto.
Qed.

(** [np.argmax] on a NaN-free array: an index inside the array that holds
    a maximum, and the first one to do so. *)
Lemma np_argmax_spec (a : ndarray fval) (k : nat) :
  (forall i j, item a i j <> NaN) ->
  np_argmax a = Ok k ->
  k < size a
  /\ (forall k', k' < size a -> fle (flat_item a k') (flat_item a k) = true)
  /\ (forall k', k' < k -> flt (flat_item a k') (flat_item a k) = true).
Proof.
  intros Hn. unfold np_argmax.
  destruct (size a) as [|n] eqn:S; [discriminate|].
  intros H. injection H as <-.
  assert (Hf : forall k, flat_item a k <> NaN) by (intros k; apply Hn).
  destruct (argmax_loop_max (flat_item a) Hf (seq 1 n) 0) as [H1 [H2 H3]].
  destruct (argmax_loop_first (flat_item a) Hf (seq 1 n) 0) as [F|F].
  - cbv zeta in *. split; [rewrite F; lia|]. split.
    + intros k' Hk'. destruct k' as [|k'].
      * rewrite F. apply fle_refl, Hf.
      * apply H3. apply in_seq. lia.
    + intros k' Hk'. rewrite F in Hk'. lia.
  - cbv zeta in *. destruct F as [l1 [l2 [F1 [F2 F3]]]].
    split.
    { destruct H1 as [->|H1]; [lia|]. apply in_seq in H1. lia. }
    split.
    + intros k' Hk'. destruct k' as [|k'].
      * exact H2.
      * apply H3. apply in_seq. lia.
    + intros k' Hk'. destruct k' as [|k'].
      * exact F3.
      * apply F2. eapply seq_split_before; [exact F1| |exact Hk']. lia.
Qed.

(** ** Flat indices and cells *)

Lemma flat_index_cell {A} (a : ndarray A) (i j : nat) :
  i < shape0 a -> j < shape1 a ->
  i * shape1 a + j < size a
  /\ flat_item a (i * shape1 a + j) = item a i j.
Proof.
  intros Hi Hj. unfold size, flat_item. split; [nia|].
  assert (D : (i * shape1 a + j) / shape1 a = i).
  { symmetry. apply Nat.div_unique with (r := j); [exact Hj|lia]. }
  assert (M : (i * shape1 a + j) mod shape1 a = j).
  { symmetry. apply Nat.mod_unique with (q := i); [exact Hj|lia]. }
  rewrite D, M. reflexivity.
Qed.

Lemma unravel_in_bounds {A} (a : ndarray A) (k y x : nat) :
  np_unravel_index k a = Ok (y, x) ->
  y < shape0 a /\ x < shape1 a /\ y * shape1 a + x = k
  /\ flat_item a k = item a y x.
Proof.
  unfold np_unravel_index, size, flat_item.
  destruct (k <? shape0 a * shape1 a) eqn:E; [|discriminate].
  apply Nat.ltb_lt in E. intros H. injection H as <- <-.
  assert (W : shape1 a <> 0) by (intros Z; rewrite Z in E; lia).
  split.
  { apply Nat.Div0.div_lt_upper_bound. lia. }
  split; [apply Nat.mod_upper_bound; exact W|].
  split; [|reflexivity].
  pose proof (Nat.div_mod_eq k (shape1 a)). lia.
Qed.

(** ** The best cell of the enhanced grid *)

Lemma fadd_not_nan (v : fval) (q : Q) : v <> NaN -> fadd v q <> NaN.
Proof. destruct v; simpl; congruence. Qed.

Lemma fsub_not_nan (v : fval) (q : Q) : v <> NaN -> fsub v q <> NaN.
Proof. destruct v; simpl; congruence. Qed.

Lemma enhanced_grid_no_nan (w : ndarray fval) (enemy_units friendly_units : list Unit) :
  (forall i j, item w i j <> NaN) ->
  forall i j, item (enhanced_grid w enemy_units friendly_units) i j <> NaN.
Proof.
  intros H i j. unfold enhanced_grid. simpl.
  match goal with |- (if ?c then _ else _) <> _ => destruct c end; [discriminate|].
  assert (B : forall i j, item (boost_enemies w enemy_units) i j <> NaN).
  { intros i' j'. unfold boost_enemies.
    destruct (np_any (enemy_positions w enemy_units)); [|apply H].
    simpl. destruct (existsb _ enemy_units); [apply fadd_not_nan|]; apply H. }
  unfold penalise_friendlies. destruct friendly_units; [apply B|].
  simpl. apply fsub_not_nan, B.
Qed.

(** X1: over a working grid without NaN, the best cell lies inside the
    grid, holds the largest value of the enhanced grid, and is the first
    cell in row-major order to hold it. *)
Theorem best_cell_is_first_maximum
        (w : ndarray fval) (enemy_units friendly_units : list Unit)
        (y x : nat) (v : fval) :
  (forall i j, item w i j <> NaN) ->
  best_cell w enemy_units friendly_units = Ok (y, x, v) ->
  y < shape0 w /\ x < shape1 w
  /\ v = item (enhanced_grid w enemy_units friendly_units) y x
  /\ (forall i j, i < shape0 w -> j < shape1 w ->
        fle (item (enhanced_grid w enemy_units friendly_units) i j) v = true)
  /\ (forall i j, j < shape1 w -> row_major_before (shape1 w) i j y x ->
        flt (item (enhanced_grid w enemy_units friendly_units) i j) v = true).
Proof.
  intros Hn. unfold best_cell.
  set (e := enhanced_grid w enemy_units friendly_units).
  destruct (shape_enhanced_grid w enemy_units friendly_units) as [S0 S1].
  fold e in S0, S1.
  destruct (np_argmax e) as [k|err] eqn:A; [|discriminate].
  destruct (np_unravel_index k e) as [[y' x']|err] eqn:U; [|discriminate].
  intros H.
  assert (Ey : y' = y) by congruence.
  assert (Ex : x' = x) by congruence.
  assert (Ev : v = item e y' x') by congruence.
  clear H. subst y' x' v.
  destruct (unravel_in_bounds _ _ U) as [By [Bx [Bk Bv]]].
  destruct (np_argmax_spec e (enhanced_grid_no_nan w enemy_units friendly_units Hn) A)
    as [Hk [Hmax Hfirst]].
  rewrite S0 in By. rewrite S1 in Bx, Bk.
  split; [exact By|]. split; [exact Bx|]. split; [reflexivity|]. split.
  - intros i j Hi Hj. rewrite <- Bv.
    assert (Hi' : i < shape0 e) by (rewrite S0; exact Hi).
    assert (Hj' : j < shape1 e) by (rewrite S1; exact Hj).
    destruct (flat_index_cell e Hi' Hj') as [L <-].
    apply Hmax. exact L.
  - intros i j Hj R. unfold row_major_before in R. rewrite <- Bv.
    assert (Q : flat_item e (i * shape1 e + j) = item e i j).
    { unfold flat_item.
      assert (Hj' : j < shape1 e) by (rewrite S1; exact Hj).
      assert (D : (i * shape1 e + j) / shape1 e = i)
        by (symmetry; apply Nat.div_unique with (r := j); [exact Hj'|lia]).
      assert (M : (i * shape1 e + j) mod shape1 e = j)
        by (symmetry; apply Nat.mod_unique with (q := i); [exact Hj'|lia]).
      rewrite D, M. reflexivity. }
    rewrite <- Q. apply Hfirst. rewrite S1. lia.
Qed.

Lemma best_cell_is_first_maximum_witness :
  (forall i j, item Examples.peak6 i j <> NaN)
  /\ best_cell Examples.peak6 [Examples.hostile_at 2 2] [] = Ok (3, 3, Fin 350%Q)
  /\ 3 < shape0 Examples.peak6.
Proof.
  assert (Hn : forall i j, item Examples.peak6 i j <> NaN).
  { intros i j. simpl. destruct ((i =? 3) && (j =? 3)); discriminate. }
  assert (Hb : best_cell Examples.peak6 [Examples.hostile_at 2 2] []
               = Ok (3, 3, Fin 350%Q)) by (vm_compute; reflexivity).
  split; [exact Hn|]. split; [exact Hb|].
  exact (proj1 (@best_cell_is_first_maximum Examples.peak6
                  [Examples.hostile_at 2 2] [] 3 3 (Fin 350%Q) Hn Hb)).
Defined.

(** ** Excluded cells *)




(** ** The position-sampling tier *)

Lemma In_insert_desc (a x : point * Z) (l : list (point * Z)) :
  In x (insert_desc a l) <-> x = a \/ In x l.
Proof.
  induction l as [|y l IH]; simpl.
  - intuition.
  - destruct (snd a <? snd y)%Z; simpl; rewrite ?IH; intuition.
Qed.

Lemma In_sort_desc (x : point * Z) (l : list (point * Z)) :
  In x (sort_desc l) <-> In x l.
Proof.
  induction l as [|a l IH]; simpl; [reflexivity|].
  rewrite In_insert_desc, IH. intuition.
Qed.

Lemma insert_desc_head (a : point * Z) (l : list (point * Z)) :
  head_dominates l -> head_dominates (insert_desc a l).
Proof.
  destruct l as [|y l]; simpl.
  - intros _ z [<-|[]]. lia.
  - intros H. destruct (snd a <? snd y)%Z eqn:E; simpl.
    + apply Z.ltb_lt in E. intros z [<-|Hz]; [lia|].
      apply In_insert_desc in Hz. destruct Hz as [->|Hz]; [lia|].
      apply H. right. exact Hz.
    + apply Z.ltb_ge in E. intros z [<-|Hz]; [lia|].
      specialize (H z Hz). lia.
Qed.

Lemma sort_desc_head (l : list (point * Z)) : head_dominates (sort_desc l).
Proof.
  induction l as [|a l IH]; simpl; [exact I|].
  apply insert_desc_head. exact IH.
Qed.

Lemma In_collect_scores (mask : option (ndarray bool)) (grid : option (ndarray fval))
      (enemy_units friendly_units : list Unit) (candidates : list point)
      (ps : point * Z) :
  In ps (collect_scores mask grid enemy_units friendly_units candidates)
  <-> exists pos, In pos candidates
                  /\ excluded mask grid pos = false
                  /\ score_position enemy_units friendly_units pos = Some ps.
Proof.
  unfold collect_scores. rewrite in_flat_map. split.
  - intros [pos [Hc H]]. exists pos. split; [exact Hc|].
    destruct (excluded mask grid pos); [destruct H|].
    destruct (score_position enemy_units friendly_units pos) as [ps'|];
      [|destruct H].
    destruct H as [<-|[]]. auto.
  - intros [pos [Hc [He Hs]]]. exists pos. split; [exact Hc|].
    rewrite He, Hs. left. reflexivity.
Qed.


(** The tier's outcome in terms of its sorted scores. *)
Lemma position_tier_unfold
      (self : UseDisruptorNova) (enemy_units friendly_units : list Unit)
      (mask : option (ndarray bool)) :
  _select_target_position_based self enemy_units friendly_units mask
  = match sort_desc (scored_candidates self enemy_units friendly_units mask) with
    | (best_pos, best_score) :: _ =>
        (Some best_pos,
         set_best_target_score (set_best_target_pos self (Some best_pos))
                               (Some best_score))
    | [] =>
        match enemy_units with
        | [] => (None, self)
        | e :: es =>
            match nova_unit self with
            | None => (None, self)
            | Some u =>
                let target_pos := position (min_by_distance (position u) e es) in
                (Some target_pos,
                 set_best_target_score (set_best_target_pos self (Some target_pos))
                                       (Some (-1)%Z))
            end
        end
    end.
Proof.
  unfold _select_target_position_based, scored_candidates.
  destruct (get_grid (mediator self)); reflexivity.
Qed.

(** With a qualifying candidate, the tier returns the head of the sorted
    scores: a member of the scores that no other member beats. *)
Lemma position_tier_best
      (self : UseDisruptorNova) (enemy_units friendly_units : list Unit)
      (mask : option (ndarray bool)) :
  scored_candidates self enemy_units friendly_units mask <> [] ->
  exists p sc,
    _select_target_position_based self enemy_units friendly_units mask
    = (Some p,
       set_best_target_score (set_best_target_pos self (Some p)) (Some sc))
    /\ In (p, sc) (scored_candidates self enemy_units friendly_units mask)
    /\ forall q t, In (q, t) (scored_candidates self enemy_units friendly_units mask)
                   -> (t <= sc)%Z.
Proof.
  intros Hne. rewrite position_tier_unfold.
  pose proof (sort_desc_head (scored_candidates self enemy_units friendly_units mask))
    as Hd.
  destruct (sort_desc (scored_candidates self enemy_units friendly_units mask))
    as [|[p sc] rest] eqn:S.
  - exfalso. destruct (scored_candidates self enemy_units friendly_units mask)
      as [|x l] eqn:C; [contradiction|].
    assert (X : In x (sort_desc (x :: l))) by (apply In_sort_desc; left; reflexivity).
    rewrite S in X. destruct X.
  - exists p, sc. split; [reflexivity|]. split.
    + apply In_sort_desc. rewrite S. left. reflexivity.
    + intros q t Hq. apply In_sort_desc in Hq. rewrite S in Hq.
      exact (Hd (q, t) Hq).
Qed.



(** A unit within the blast radius of [pos] counts as hit. *)
Lemma count_hit_member (pos : point) (u : Unit) (units : list Unit) :
  In u units ->
  sqrt_le (dist2 pos (position u)) nova_radius = true ->
  (0 < count_hit pos units)%Z.
Proof.
  intros Hin Hd. unfold count_hit.
  assert (F : In u (filter (fun u => sqrt_le (dist2 pos (position u)) nova_radius)
                           units))
    by (apply filter_In; auto).
  destruct (filter _ units); [destruct F|]. simpl. lia.
Qed.

Lemma dist2_self (p : point) : sqrt_le (dist2 p p) nova_radius = true.
Proof.
  unfold sqrt_le. apply andb_true_iff. split; [reflexivity|].
  apply Qle_bool_iff.
  assert (Z0 : (dist2 p p == 0)%Q) by (unfold dist2; ring).
  rewrite Z0. unfold nova_radius, Qle. simpl. lia.
Qed.




(** A hostile's own position is a candidate, first of its group. *)
Lemma hostile_position_candidate (e : Unit) (enemy_units : list Unit)
      (x_max y_max : nat) :
  In e enemy_units ->
  In (position e) (candidate_positions enemy_units x_max y_max).
Proof.
  intros H. unfold candidate_positions. apply in_or_app. left.
  apply in_flat_map. exists e. split; [exact H|]. left. reflexivity.
Qed.

Lemma count_hit_nil (pos : point) : count_hit pos [] = 0%Z.
Proof. reflexivity. Qed.

(** With hostiles and no friendlies or mask, the first hostile's own
    position qualifies with a score of at least 150. *)
Lemma position_tier_finds_target_without_friendlies_aux
      (self : UseDisruptorNova) (enemy_units : list Unit) :
  enemy_units <> [] ->
  exists p s',
    _select_target_position_based self enemy_units [] None = (Some p, s')
    /\ exists sc, s' = set_best_target_score (set_best_target_pos self (Some p))
                                            (Some sc)
                  /\ (150 <= sc)%Z.
Proof.
  intros He. destruct enemy_units as [|e es]; [contradiction|].
  assert (Hh : (0 < count_hit (position e) (e :: es))%Z).
  { apply count_hit_member with (u := e); [left; reflexivity|apply dist2_self]. }
  assert (Hs : score_position (e :: es) [] (position e)
               = Some (position e, (count_hit (position e) (e :: es) * 150)%Z)).
  { unfold score_position. rewrite count_hit_nil.
    destruct (0 <? count_hit (position e) (e :: es))%Z eqn:E;
      [|apply Z.ltb_ge in E; lia].
    replace (count_hit (position e) (e :: es) * 150 - 0 * 200)%Z
      with (count_hit (position e) (e :: es) * 150)%Z by lia.
    destruct (-100 <? count_hit (position e) (e :: es) * 150)%Z eqn:T;
      [reflexivity|apply Z.ltb_ge in T; lia]. }
  assert (M : In (position e, (count_hit (position e) (e :: es) * 150)%Z)
                 (scored_candidates self (e :: es) [] None)).
  { unfold scored_candidates.
    destruct (get_grid (mediator self)) as [g|];
      apply In_collect_scores; exists (position e);
      (split; [apply hostile_position_candidate; left; reflexivity|]);
      (split; [reflexivity|exact Hs]). }
  assert (Hne : scored_candidates self (e :: es) [] None <> []).
  { intros Z. rewrite Z in M. destruct M. }
  destruct (position_tier_best self (e :: es) [] None Hne)
    as [p [sc [R [_ Hmax]]]].
  exists p. eexists. split; [exact R|].
  exists sc. split; [reflexivity|].
  specialize (Hmax _ _ M). lia.
Qed.

(** X5: with hostiles present, no friendlies and no mask, the position tier
    always returns a target, and its score is at least 150. *)
Theorem position_tier_finds_target_without_friendlies
        (self : UseDisruptorNova) (enemy_units : list Unit) :
  enemy_units <> [] ->
  exists p sc,
    _select_target_position_based self enemy_units [] None
    = (Some p,
       set_best_target_score (set_best_target_pos self (Some p)) (Some sc))
    /\ (150 <= sc)%Z.
Proof.
  intros He.
  destruct (position_tier_finds_target_without_friendlies_aux self He)
    as [p [s' [R [sc [-> Hsc]]]]].
  exists p, sc. split; [exact R|exact Hsc].
Qed.

Lemma position_tier_finds_target_without_friendlies_witness :
  exists p sc,
    _select_target_position_based Examples.fresh [Examples.hostile_at 1 0] [] None
    = (Some p,
       set_best_target_score (set_best_target_pos Examples.fresh (Some p)) (Some sc))
    /\ (150 <= sc)%Z.
Proof.
  apply (@position_tier_finds_target_without_friendlies Examples.fresh
           [Examples.hostile_at 1 0]).
  discriminate.
Defined.

(** ** What the selector leaves on the instance *)

Lemma same_lifecycle_refl (s : UseDisruptorNova) : same_lifecycle s s.
Proof. repeat split. Qed.

Lemma same_lifecycle_trans (a b c : UseDisruptorNova) :
  same_lifecycle a b -> same_lifecycle b c -> same_lifecycle a c.
Proof.
  unfold same_lifecycle. intros [A1 [A2 [A3 A4]]] [B1 [B2 [B3 B4]]].
  repeat split; congruence.
Qed.

Lemma position_tier_effect
      (self s' : UseDisruptorNova) (enemy_units friendly_units : list Unit)
      (mask : option (ndarray bool)) (r : option point) :
  _select_target_position_based self enemy_units friendly_units mask = (r, s') ->
  same_lifecycle self s'
  /\ match r with
     | Some p => best_target_pos s' = Some p
     | None => s' = self
     end.
Proof.
  rewrite position_tier_unfold.
  destruct (sort_desc (scored_candidates self enemy_units friendly_units mask))
    as [|[bp bs] rest].
  - destruct enemy_units as [|e es].
    + intros H. injection H as <- <-. split; [apply same_lifecycle_refl|reflexivity].
    + destruct (nova_unit self) as [u|].
      * intros H. injection H as <- <-. split; [repeat split|reflexivity].
      * intros H. injection H as <- <-.
        split; [apply same_lifecycle_refl|reflexivity].
  - intros H. injection H as <- <-. split; [repeat split|reflexivity].
Qed.

Lemma grid_tier_effect
      (self s' : UseDisruptorNova) (w : ndarray fval)
      (enemy_units friendly_units : list Unit) (p : point) :
  grid_tier self w enemy_units friendly_units = Some (p, s') ->
  same_lifecycle self s'
  /\ best_target_pos s' = Some p
  /\ acceptable (best_target_influence s') = true.
Proof.
  unfold grid_tier.
  destruct (best_cell w enemy_units friendly_units) as [[[y x] v]|e]; [|discriminate].
  destruct (acceptable v) eqn:A; [|discriminate].
  simpl. destruct (should_debug_visuals self);
    intros H; injection H as <- <-; (split; [repeat split|split; [reflexivity|exact A]]).
Qed.

Lemma select_best_target_effect
      (self s' : UseDisruptorNova) (enemy_units friendly_units : list Unit)
      (mask : option (ndarray bool)) (r : option point) :
  select_best_target self enemy_units friendly_units mask = (r, s') ->
  same_lifecycle self s'
  /\ match r with
     | Some p => best_target_pos s' = Some p
     | None => s' = self
     end.
Proof.
  unfold select_best_target.
  destruct enemy_units as [|e es].
  { intros H. injection H as <- <-. split; [apply same_lifecycle_refl|reflexivity]. }
  destruct (get_grid (mediator self)) as [g|]; [|apply position_tier_effect].
  destruct (size (amap replace_inf g) =? 0).
  { intros H. injection H as <- <-. split; [apply same_lifecycle_refl|reflexivity]. }
  destruct mask as [m|].
  - destruct (same_shape m (amap replace_inf g)); [|apply position_tier_effect].
    destruct (grid_tier self (apply_exclusion (amap replace_inf g) m) (e :: es)
                        friendly_units) as [[q s]|] eqn:T;
      [|apply position_tier_effect].
    intros H. injection H as <- <-.
    destruct (grid_tier_effect _ _ _ _ T) as [L [P _]]. auto.
  - destruct (grid_tier self (amap replace_inf g) (e :: es) friendly_units)
      as [[q s]|] eqn:T; [|apply position_tier_effect].
    intros H. injection H as <- <-.
    destruct (grid_tier_effect _ _ _ _ T) as [L [P _]]. auto.
Qed.

(** X6: [select_best_target] stores every target it returns as
    [best_target_pos], leaves the instance untouched when it returns None,
    and never changes the frame count, the unit, the mediator or the
    remaining distance. *)
Theorem select_best_target_records_target
        (self : UseDisruptorNova) (enemy_units friendly_units : list Unit)
        (mask : option (ndarray bool)) :
  let r := select_best_target self enemy_units friendly_units mask in
  same_lifecycle self (snd r)
  /\ match fst r with
     | Some p => best_target_pos (snd r) = Some p
     | None => snd r = self
     end.
Proof.
  cbv zeta.
  destruct (select_best_target self enemy_units friendly_units mask) as [r s'] eqn:E.
  exact (select_best_target_effect _ _ _ _ E).
Qed.

(** X7: with hostiles present, no friendlies, no mask, and a grid that is
    absent or non-empty, [select_best_target] always returns a target. *)
Theorem select_best_target_finds_target_without_friendlies
        (self : UseDisruptorNova) (enemy_units : list Unit) :
  enemy_units <> [] ->
  (forall g, get_grid (mediator self) = Some g -> size g <> 0) ->
  exists p s', select_best_target self enemy_units [] None = (Some p, s').
Proof.
  intros He Hg.
  destruct (position_tier_finds_target_without_friendlies_aux self He)
    as [p [s' [R _]]].
  unfold select_best_target.
  destruct enemy_units as [|e es]; [contradiction|].
  destruct (get_grid (mediator self)) as [g|] eqn:G; [|eauto].
  change (size (amap replace_inf g)) with (size g).
  destruct (size g =? 0) eqn:Z; [apply Nat.eqb_eq in Z; exfalso; eapply Hg; eauto|].
  destruct (grid_tier self (amap replace_inf g) (e :: es) []) as [[q s]|]; eauto.
Qed.

Lemma select_best_target_finds_target_without_friendlies_witness :
  exists p s',
    select_best_target Examples.fresh [Examples.hostile_at 1 0] [] None
    = (Some p, s').
Proof.
  apply (@select_best_target_finds_target_without_friendlies Examples.fresh
           [Examples.hostile_at 1 0]).
  - discriminate.
  - intros g H. injection H as <-. simpl. discriminate.
Defined.

(** ** Retargeting *)



Lemma decide_switch_lifecycle
      (self : UseDisruptorNova) (grid : ndarray fval) (m : manager)
      (new_target : option point) (new_influence : option fval) :
  same_lifecycle self (snd (fst (decide_switch self grid m new_target new_influence))).
Proof.
  unfold decide_switch.
  destruct new_target as [nt|]; [|apply same_lifecycle_refl].
  destruct (best_target_pos self) as [cur|]; [|apply same_lifecycle_refl].
  destruct (point_truthy nt && point_truthy cur); [|apply same_lifecycle_refl].
  destruct (influence_at grid cur) as [c|e]; [|apply same_lifecycle_refl].
  destruct (match new_influence with
            | Some v => Ok v
            | None => influence_at grid nt
            end) as [n|e]; [|apply same_lifecycle_refl].
  destruct (significant (improvement c n)); [|repeat split].
  destruct (too_close m cur nt); repeat split.
Qed.


Lemma update_target_position_lifecycle
      (self : UseDisruptorNova) (enemy_units friendly_units : list Unit)
      (m : manager) :
  same_lifecycle self
    (snd (fst (update_target_position self enemy_units friendly_units m))).
Proof.
  unfold update_target_position.
  destruct (best_target_pos self) as [own|]; [|apply same_lifecycle_refl].
  destruct (nova_unit self) as [u|]; [|apply same_lifecycle_refl].
  destruct (negb (point_truthy own)); [apply same_lifecycle_refl|].
  destruct (frames_left self <? 5)%Z; [apply same_lifecycle_refl|].
  destruct (nova_speed m) as [speed|]; [|apply same_lifecycle_refl].
  destruct (get_grid (mediator self)) as [grid|]; [|apply same_lifecycle_refl].
  destruct (call_unregister m own) as [unreg mgr1].
  match goal with
  | |- context [search_grid grid ?cm mgr1 own] =>
      destruct (search_grid grid cm mgr1 own) as [[t v]|];
        [apply decide_switch_lifecycle|];
        destruct (select_best_target self enemy_units friendly_units (Some cm))
          as [t s] eqn:SB
  end.
  apply select_best_target_effect in SB. destruct SB as [L _].
  eapply same_lifecycle_trans; [exact L|apply decide_switch_lifecycle].
Qed.

(** X8: [update_target_position] never changes the frame count, the unit,
    the mediator or the remaining distance of the instance. *)
Theorem update_target_position_keeps_lifecycle
        (self s' : UseDisruptorNova) (enemy_units friendly_units : list Unit)
        (m m' : manager) (b : bool) :
  update_target_position self enemy_units friendly_units m = (b, s', m') ->
  same_lifecycle self s'.
Proof.
  intros H.
  pose proof (update_target_position_lifecycle self enemy_units friendly_units m) as L.
  rewrite H in L. exact L.
Qed.

Lemma update_target_position_keeps_lifecycle_witness :
  same_lifecycle Examples.in_flight_peak
    (snd (fst (update_target_position Examples.in_flight_peak [] [] Examples.lone))).
Proof.
  destruct (update_target_position Examples.in_flight_peak [] [] Examples.lone)
    as [[b s] mm] eqn:E.
  exact (@update_target_position_keeps_lifecycle _ _ _ _ _ _ _ E).
Defined.

(** X9: retargeting is skipped, with the instance and the manager left as
    they were and False returned, in the last four frames
    ([frames_left < 5]), when the manager has no [nova_speed], and when no
    grid is available. *)
Theorem update_target_position_skips
        (self : UseDisruptorNova) (enemy_units friendly_units : list Unit)
        (m : manager) :
  (frames_left self < 5)%Z \/ nova_speed m = None
  \/ get_grid (mediator self) = None ->
  update_target_position self enemy_units friendly_units m = (false, self, m).
Proof.
  intros H. unfold update_target_position.
  destruct (best_target_pos self) as [own|]; [|reflexivity].
  destruct (nova_unit self) as [u|]; [|reflexivity].
  destruct (negb (point_truthy own)); [reflexivity|].
  destruct (frames_left self <? 5)%Z eqn:F; [reflexivity|].
  apply Z.ltb_ge in F.
  destruct H as [H|[H|H]]; [lia|rewrite H; reflexivity|].
  destruct (nova_speed m); [rewrite H|]; reflexivity.
Qed.

Lemma update_target_position_skips_witness :
  update_target_position (set_frames_left Examples.in_flight 4)
                         [Examples.hostile_at 4 4] [] Examples.crowded
  = (false, set_frames_left Examples.in_flight 4, Examples.crowded).
Proof.
  apply (@update_target_position_skips (set_frames_left Examples.in_flight 4)
           [Examples.hostile_at 4 4] [] Examples.crowded).
  left. simpl. lia.
Defined.



(** ** Candidates of the grid search *)





(** ** The per-tick step *)

Lemma point_eqb_refl (p : point) : point_eqb p p = true.
Proof.
  unfold point_eqb. apply andb_true_iff.
  split; apply Qeq_bool_iff; reflexivity.
Qed.

(** X12: [run_step] takes exactly one frame from an instance that has
    frames left and none from an expired one, whatever manager it is given
    and whether or not it raises; it never changes the unit. *)
Theorem run_step_takes_one_frame
        (self : UseDisruptorNova) (enemy_units friendly_units : list Unit)
        (nova_manager : option manager) :
  let s' := snd (fst (fst (run_step self enemy_units friendly_units nova_manager))) in
  frames_left s'
  = (if (frames_left self <=? 0)%Z then frames_left self else frames_left self - 1)%Z
  /\ nova_unit s' = nova_unit self.
Proof.
  cbv zeta. unfold run_step.
  destruct (frames_left self <=? 0)%Z; [split; reflexivity|].
  set (s1 := set_frames_left self (frames_left self - 1)).
  assert (G : forall s2 mgr,
             frames_left s2 = frames_left s1 -> nova_unit s2 = nova_unit s1 ->
             let x :=
               match (if (frames_left s2 mod 22 =? 0)%Z && has_influence_grid s2
                      then run_debug s2 else Ok tt) with
               | Raise e => (Raise e, s2, mgr, [])
               | Ok _ =>
                   match best_target_pos s2 with
                   | None => (Ok (0 <? frames_left s2)%Z, s2, mgr, [])
                   | Some target =>
                       match nova_unit s2 with
                       | None => (Raise AttributeError, s2, mgr, [])
                       | Some u =>
                           if negb (point_eqb target (position u))
                           then (Ok (0 <? frames_left s2)%Z, s2, mgr, [Move u target])
                           else (Ok (0 <? frames_left s2)%Z, s2, mgr, [])
                       end
                   end
               end : result bool * UseDisruptorNova * option manager * list command in
             frames_left (snd (fst (fst x))) = (frames_left self - 1)%Z
             /\ nova_unit (snd (fst (fst x))) = nova_unit self).
  { intros s2 mgr Hf Hu. cbv zeta.
    change (frames_left s1) with (frames_left self - 1)%Z in Hf.
    change (nova_unit s1) with (nova_unit self) in Hu.
    destruct (if (frames_left s2 mod 22 =? 0)%Z && has_influence_grid s2
              then run_debug s2 else Ok tt); [|split; simpl; congruence].
    destruct (best_target_pos s2); [|split; simpl; congruence].
    destruct (nova_unit s2) eqn:U; [|split; simpl; congruence].
    destruct (negb (point_eqb p (position u))); split; simpl; congruence. }
  destruct nova_manager as [m|].
  - pose proof (update_target_position_lifecycle s1 enemy_units friendly_units m) as L.
    destruct (update_target_position s1 enemy_units friendly_units m) as [[b s] m'].
    destruct L as [Lf [Lu _]]. apply G; assumption.
  - apply G; reflexivity.
Qed.

(** X13: with a unit bound, [run_step] never raises; it returns True
    exactly when frames remain afterwards, and it issues at most one
    command, a move of that unit to the stored target, and only when the
    target differs from the unit's position. *)
Theorem run_step_bound_moves_to_target
        (self : UseDisruptorNova) (u : Unit)
        (enemy_units friendly_units : list Unit) (nova_manager : option manager) :
  nova_unit self = Some u ->
  exists s' m' cmds,
    run_step self enemy_units friendly_units nova_manager
    = (Ok (0 <? frames_left s')%Z, s', m', cmds)
    /\ (cmds = []
        \/ exists target,
            cmds = [Move u target]
            /\ best_target_pos s' = Some target
            /\ point_eqb target (position u) = false).
Proof.
  intros Hu. unfold run_step.
  destruct (frames_left self <=? 0)%Z eqn:F.
  { exists self, nova_manager, []. split; [|left; reflexivity].
    apply Z.leb_le in F.
    destruct (0 <? frames_left self)%Z eqn:G; [apply Z.ltb_lt in G; lia|reflexivity]. }
  set (s1 := set_frames_left self (frames_left self - 1)).
  assert (G : forall s2 (mgr : option manager),
             nova_unit s2 = Some u ->
             exists s' m' cmds,
               match (if (frames_left s2 mod 22 =? 0)%Z && has_influence_grid s2
                      then run_debug s2 else Ok tt) with
               | Raise e => (Raise e, s2, mgr, [])
               | Ok _ =>
                   match best_target_pos s2 with
                   | None => (Ok (0 <? frames_left s2)%Z, s2, mgr, [])
                   | Some target =>
                       match nova_unit s2 with
                       | None => (Raise AttributeError, s2, mgr, [])
                       | Some u =>
                           if negb (point_eqb target (position u))
                           then (Ok (0 <? frames_left s2)%Z, s2, mgr, [Move u target])
                           else (Ok (0 <? frames_left s2)%Z, s2, mgr, [])
                       end
                   end
               end = (Ok (0 <? frames_left s')%Z, s', m', cmds)
               /\ (cmds = []
                   \/ exists target,
                       cmds = [Move u target]
                       /\ best_target_pos s' = Some target
                       /\ point_eqb target (position u) = false)).
  { intros s2 mgr U.
    assert (D : (if (frames_left s2 mod 22 =? 0)%Z && has_influence_grid s2
                 then run_debug s2 else Ok tt) = Ok tt).
    { unfold run_debug. rewrite U.
      destruct ((frames_left s2 mod 22 =? 0)%Z && has_influence_grid s2); reflexivity. }
    rewrite D.
    destruct (best_target_pos s2) as [t|] eqn:T.
    - rewrite U. destruct (point_eqb t (position u)) eqn:E; simpl.
      + exists s2, mgr, []. split; [reflexivity|left; reflexivity].
      + exists s2, mgr, [Move u t]. split; [reflexivity|].
        right. exists t. auto.
    - exists s2, mgr, []. split; [reflexivity|left; reflexivity]. }
  destruct nova_manager as [m|].
  - pose proof (update_target_position_lifecycle s1 enemy_units friendly_units m) as L.
    destruct (update_target_position s1 enemy_units friendly_units m) as [[b s] m'].
    destruct L as [_ [Lu _]]. apply G. simpl in Lu. rewrite Lu. exact Hu.
  - apply G. exact Hu.
Qed.

Lemma run_step_bound_moves_to_target_witness :
  exists s' m' cmds,
    run_step Examples.in_flight [] [] None
    = (Ok (0 <? frames_left s')%Z, s', m', cmds)
    /\ (cmds = []
        \/ exists target,
            cmds = [Move Examples.nova_at_33 target]
            /\ best_target_pos s' = Some target
            /\ point_eqb target (position Examples.nova_at_33) = false).
Proof.
  apply (@run_step_bound_moves_to_target Examples.in_flight Examples.nova_at_33
           [] [] None).
  reflexivity.
Defined.

(** X14: a nova freshly bound by [load_info] targets its unit's own
    position, so its first [run_step] without a manager takes one frame
    (48 to 47), returns True and issues no command. *)
Theorem loaded_nova_first_step
        (self : UseDisruptorNova) (u : Unit) (enemy_units friendly_units : list Unit) :
  run_step (load_info self u) enemy_units friendly_units None
  = (Ok true, set_frames_left (load_info self u) 47, None, []).
Proof.
  unfold run_step. simpl.
  rewrite point_eqb_refl. reflexivity.
Qed.

(** ** The coordinator's tick *)

(** The loop body on a bound instance: both calls return, the frame count
    drops as [frames_after_tick] says, and the unit stays. *)
Lemma loop_body_bound
      (n : UseDisruptorNova) (u : Unit) (enemy_units friendly_units : list Unit) :
  nova_unit n = Some u ->
  exists n1 n2 b cmds,
    update_info n = (Ok tt, n1)
    /\ run_step n1 enemy_units friendly_units None = (Ok b, n2, None, cmds)
    /\ frames_left n2 = frames_after_tick (frames_left n)
    /\ nova_unit n2 = Some u.
Proof.
  intros Hu.
  set (s0 := set_frames_left n (frames_left n - 1)).
  set (n1 := set_distance_left s0 (calculate_distance_left s0 (movement_speed u))).
  assert (U1 : nova_unit n1 = Some u) by exact Hu.
  assert (E1 : update_info n = (Ok tt, n1)).
  { unfold update_info. fold s0.
    replace (nova_unit s0) with (Some u) by (symmetry; exact Hu). reflexivity. }
  unfold frames_after_tick.
  destruct (frames_left n - 1 <=? 0)%Z eqn:F.
  - exists n1, n1, false, []. split; [exact E1|]. split; [|split; [reflexivity|exact U1]].
    unfold run_step.
    replace (frames_left n1 <=? 0)%Z with true by (symmetry; exact F). reflexivity.
  - assert (Hf : (0 < frames_left n1)%Z) by (apply Z.leb_gt in F; simpl; lia).
    destruct (run_step_bound_no_manager n1 enemy_units friendly_units U1 Hf)
      as [b [cmds R]].
    exists n1, (set_frames_left n1 (frames_left n1 - 1)), b, cmds.
    split; [exact E1|]. split; [exact R|]. split; [simpl; lia|exact U1].
Qed.

Lemma write_same (st : store) (r : nat) (v : UseDisruptorNova) :
  objects (write st r v) r = v.
Proof. simpl. rewrite Nat.eqb_refl. reflexivity. Qed.

Lemma write_other (st : store) (r r' : nat) (v : UseDisruptorNova) :
  r' <> r -> objects (write st r v) r' = objects st r'.
Proof. intros H. simpl. apply Nat.eqb_neq in H. rewrite H. reflexivity. Qed.

Lemma update_each_bound (enemy_units friendly_units : list Unit) (refs : list nat) :
  forall st expired cmds,
    NoDup refs ->
    (forall r, In r refs -> nova_unit (objects st r) <> None) ->
    exists st' cmds',
      update_each refs st enemy_units friendly_units expired cmds
      = (Ok (expired ++ filter (fun r => (frames_left (objects st' r) <=? 0)%Z) refs),
         st', cmds')
      /\ (forall r, In r refs ->
            frames_left (objects st' r) = frames_after_tick (frames_left (objects st r))
            /\ nova_unit (objects st' r) = nova_unit (objects st r))
      /\ (forall r, ~ In r refs -> objects st' r = objects st r).
Proof.
  induction refs as [|r rest IH]; intros st expired cmds Hnd Hb.
  - exists st, cmds. simpl. rewrite app_nil_r.
    split; [reflexivity|]. split; [intros r []|intros r _; reflexivity].
  - inversion Hnd as [|? ? Hnotin Hnd']; subst.
    destruct (nova_unit (objects st r)) as [u|] eqn:U;
      [|exfalso; apply (Hb r); [left; reflexivity|exact U]].
    destruct (loop_body_bound (objects st r) enemy_units friendly_units U)
      as [n1 [n2 [b [c [E1 [E2 [Ef Eu]]]]]]].
    simpl. rewrite E1, E2.
    set (st1 := write st r n2).
    assert (Hb1 : forall r', In r' rest -> nova_unit (objects st1 r') <> None).
    { intros r' Hr'. unfold st1. rewrite write_other.
      - apply Hb. right. exact Hr'.
      - intros ->. contradiction. }
    destruct (IH st1 (if (frames_left n2 <=? 0)%Z then expired ++ [r] else expired)
                 (cmds ++ c) Hnd' Hb1) as [st' [cmds' [R [Hin Hout]]]].
    exists st', cmds'.
    assert (Or : objects st' r = n2).
    { rewrite (Hout r Hnotin). apply write_same. }
    split.
    + rewrite R. rewrite Or.
      destruct (frames_left n2 <=? 0)%Z; [rewrite <- app_assoc|]; reflexivity.
    + split.
      * intros r' [<-|Hr'].
        -- rewrite Or. split; [exact Ef|congruence].
        -- destruct (Hin r' Hr') as [A B].
           assert (N : r' <> r) by (intros ->; contradiction).
           unfold st1 in A, B. rewrite (write_other st n2 N) in A, B. auto.
      * intros r' Hr'.
        assert (N : r' <> r) by (intros ->; apply Hr'; left; reflexivity).
        rewrite Hout by (intros X; apply Hr'; right; exact X).
        apply write_other. exact N.
Qed.

Lemma remove_expired_skip (a : nat) (expired : list nat) :
  forall l l',
    ~ In a expired ->
    remove_expired expired l = (Ok tt, l') ->
    remove_expired expired (a :: l) = (Ok tt, a :: l').
Proof.
  induction expired as [|x ex IH]; intros l l' Hn H; simpl in *.
  - injection H as <-. reflexivity.
  - assert (N : (a =? x) = false) by (apply Nat.eqb_neq; intros ->; apply Hn; auto).
    rewrite N.
    destruct (list_remove x l) as [l1|e]; [|discriminate].
    apply IH; [intros X; apply Hn; auto|exact H].
Qed.

Lemma remove_expired_filter (p : nat -> bool) (active : list nat) :
  NoDup active ->
  remove_expired (filter p active) active
  = (Ok tt, filter (fun r => negb (p r)) active).
Proof.
  induction active as [|a l IH]; intros Hnd; [reflexivity|].
  inversion Hnd as [|? ? Hnotin Hnd']; subst. simpl.
  destruct (p a) eqn:Pa; simpl.
  - rewrite Nat.eqb_refl. apply IH. exact Hnd'.
  - apply remove_expired_skip; [|apply IH; exact Hnd'].
    intros X. apply filter_In in X. destruct X. contradiction.
Qed.

(** One [update] over distinct bound instances. *)
Lemma update_bound_spec
        (m : NovaManager) (st : store) (enemy_units friendly_units : list Unit) :
  NoDup (active_novas m) ->
  (forall r, In r (active_novas m) -> nova_unit (objects st r) <> None) ->
  exists st' cmds,
    update m st enemy_units friendly_units
    = (Ok tt,
       set_active_novas m
         (filter (fun r => (0 <? frames_left (objects st' r))%Z) (active_novas m)),
       st', cmds)
    /\ (forall r, In r (active_novas m) ->
          frames_left (objects st' r) = frames_after_tick (frames_left (objects st r))
          /\ nova_unit (objects st' r) = nova_unit (objects st r))
    /\ (forall r, ~ In r (active_novas m) -> objects st' r = objects st r).
Proof.
  intros Hnd Hb. unfold update.
  destruct (@update_each_bound enemy_units friendly_units (active_novas m) st [] [] Hnd Hb)
    as [st' [cmds [R [Hin Hout]]]].
  exists st', cmds. rewrite R. simpl.
  rewrite (@remove_expired_filter _ (active_novas m) Hnd).
  split; [|split; assumption].
  assert (Eq : filter (fun r => negb (frames_left (objects st' r) <=? 0)%Z)
                      (active_novas m)
               = filter (fun r => (0 <? frames_left (objects st' r))%Z)
                        (active_novas m)).
  { apply filter_ext. intros r.
    destruct (frames_left (objects st' r) <=? 0)%Z eqn:A;
      destruct (0 <? frames_left (objects st' r))%Z eqn:B; try reflexivity.
    - apply Z.leb_le in A. apply Z.ltb_lt in B. lia.
    - apply Z.leb_gt in A. apply Z.ltb_ge in B. lia. }
  rewrite Eq. reflexivity.
Qed.

(** X15: when the tracked instances are distinct objects and each has a
    unit, one [update] returns normally; every tracked instance loses one
    frame in [update_info] and one more in [run_step] while frames remain;
    the list keeps, in order, exactly the instances that still have frames
    left; no other object is touched. *)
Theorem update_keeps_exactly_live_instances
        (m : NovaManager) (st : store) (enemy_units friendly_units : list Unit) :
  NoDup (active_novas m) ->
  (forall r, In r (active_novas m) -> nova_unit (objects st r) <> None) ->
  exists st' cmds,
    update m st enemy_units friendly_units
    = (Ok tt,
       set_active_novas m
         (filter (fun r => (0 <? frames_left (objects st' r))%Z) (active_novas m)),
       st', cmds)
    /\ (forall r, In r (active_novas m) ->
          frames_left (objects st' r) = frames_after_tick (frames_left (objects st r))
          /\ nova_unit (objects st' r) = nova_unit (objects st r))
    /\ (forall r, ~ In r (active_novas m) -> objects st' r = objects st r).
Proof.
  intros Hnd Hb. exact (update_bound_spec m st enemy_units friendly_units Hnd Hb).
Qed.

Lemma update_keeps_exactly_live_instances_witness :
  exists st' cmds,
    update Examples.tracking Examples.heap [] []
    = (Ok tt,
       set_active_novas Examples.tracking
         (filter (fun r => (0 <? frames_left (objects st' r))%Z)
                 (active_novas Examples.tracking)),
       st', cmds)
    /\ (forall r, In r (active_novas Examples.tracking) ->
          frames_left (objects st' r)
          = frames_after_tick (frames_left (objects Examples.heap r))
          /\ nova_unit (objects st' r) = nova_unit (objects Examples.heap r))
    /\ (forall r, ~ In r (active_novas Examples.tracking) ->
          objects st' r = objects Examples.heap r).
Proof.
  apply (@update_keeps_exactly_live_instances Examples.tracking Examples.heap [] []).
  - simpl. constructor; [intros []|constructor].
  - intros r _. simpl. discriminate.
Defined.

Lemma update_each_unbound (enemy_units friendly_units : list Unit) (refs : list nat) :
  forall st expired cmds,
    (exists r, In r refs /\ nova_unit (objects st r) = None) ->
    exists st' cmds',
      update_each refs st enemy_units friendly_units expired cmds
      = (Raise AttributeError, st', cmds').
Proof.
  induction refs as [|r0 rest IH]; intros st expired cmds [r [Hin Hu]].
  - destruct Hin.
  - simpl. destruct (nova_unit (objects st r0)) as [u|] eqn:U.
    + destruct (loop_body_bound (objects st r0) enemy_units friendly_units U)
        as [n1 [n2 [b [c [E1 [E2 [Ef Eu]]]]]]].
      rewrite E1, E2. apply IH.
      assert (N : r <> r0) by (intros ->; congruence).
      exists r. split; [destruct Hin as [<-|Hin]; [contradiction N; reflexivity|exact Hin]|].
      rewrite write_other by exact N. exact Hu.
    + unfold update_info. simpl. rewrite U. eauto.
Qed.

(** X16: if some tracked instance has no unit, [update] raises
    AttributeError and removes nothing from [active_novas], expired
    instances included. *)
Theorem update_raises_on_unbound_instance
        (m : NovaManager) (st : store) (enemy_units friendly_units : list Unit) :
  (exists r, In r (active_novas m) /\ nova_unit (objects st r) = None) ->
  exists st' cmds,
    update m st enemy_units friendly_units = (Raise AttributeError, m, st', cmds).
Proof.
  intros H. unfold update.
  destruct (@update_each_unbound enemy_units friendly_units (active_novas m) st [] [] H)
    as [st' [cmds R]].
  rewrite R. eauto.
Qed.

Lemma update_raises_on_unbound_instance_witness :
  exists st' cmds,
    update Examples.tracking (mkStore (fun _ => Examples.launched) 1) [] []
    = (Raise AttributeError, Examples.tracking, st', cmds).
Proof.
  apply (@update_raises_on_unbound_instance
           Examples.tracking (mkStore (fun _ => Examples.launched) 1) [] []).
  exists 0. split; [left; reflexivity|reflexivity].
Defined.

(** ** The launch *)



(** X18: with no hostile in the list, [execute] issues no command, returns
    None and leaves the instance and the manager as they were, whatever the
    launcher, the friendlies and the manager are. *)
Theorem execute_without_hostiles
        (self : UseDisruptorNova) (disruptor_unit : Disruptor)
        (friendly_units : list Unit) (nova_manager : option manager) :
  execute self disruptor_unit [] friendly_units nova_manager
  = (false, self, nova_manager, []).
Proof.
  unfold execute.
  destruct (negb (can_use disruptor_unit)); [reflexivity|].
  destruct nova_manager as [m|]; [|reflexivity].
  destruct (get_grid (mediator self)) as [grid|]; [|reflexivity].
  destruct (call_get_exclusion_mask m grid); reflexivity.
Qed.

(** ** Sanitizing twice *)

(** X19: a grid returned by [get_grid] holds no infinity and no NaN, so the
    infinity replacement that [select_best_target] and
    [update_target_position] apply to it again changes no cell, and neither
    would a second ingestion. *)
Theorem get_grid_output_is_fixed_point (m : tactical_grid) (g : ndarray fval) :
  get_grid m = Some g ->
  forall i j,
    replace_inf (item g i j) = item g i j
    /\ item (amap replace_inf g) i j = item g i j
    /\ (forall g', get_grid (GridArray g) = Some g' -> item g' i j = item g i j).
Proof.
  destruct m as [e| |raw]; simpl; try discriminate.
  intros H. injection H as <-. intros i j. simpl.
  rewrite replace_nan_replace_inf.
  assert (F : replace_inf (sanitized (item raw i j)) = sanitized (item raw i j))
    by (destruct (item raw i j); reflexivity).
  split; [exact F|]. split; [exact F|].
  intros g' H. injection H as <-. simpl.
  rewrite !replace_nan_replace_inf.
  destruct (item raw i j); reflexivity.
Qed.

Lemma get_grid_output_is_fixed_point_witness :
  let g := amap replace_nan (amap replace_inf Examples.specials) in
  replace_inf (item g 0 2) = item g 0 2
  /\ item (amap replace_inf g) 0 2 = item g 0 2
  /\ (forall g', get_grid (GridArray g) = Some g' -> item g' 0 2 = item g 0 2).
Proof.
  exact (@get_grid_output_is_fixed_point (GridArray Examples.specials) _ eq_refl 0 2).
Defined.

(** ** Lifetime under the coordinator *)

Lemma ticks_nothing_tracked (n : nat) (m : NovaManager) (st : store)
      (enemy_units friendly_units : list Unit) :
  active_novas m = [] ->
  exists m', ticks n m st enemy_units friendly_units = (Ok tt, m', st)
             /\ active_novas m' = [].
Proof.
  revert m. induction n as [|n IH]; intros m H; simpl.
  - exists m. auto.
  - unfold update. rewrite H. simpl. apply IH. reflexivity.
Qed.

(** X20: a single tracked instance with a unit and [f > 0] frames stays
    listed for as long as twice the number of ticks is below [f] and is gone
    from then on: its lifetime under the coordinator is [f / 2] ticks
    rounded up, and no tick raises. *)
Theorem tracked_instance_lifetime (n : nat) :
  forall (m : NovaManager) (st : store) (r : nat)
         (enemy_units friendly_units : list Unit),
    active_novas m = [r] ->
    nova_unit (objects st r) <> None ->
    (0 < frames_left (objects st r))%Z ->
    exists m' st',
      ticks n m st enemy_units friendly_units = (Ok tt, m', st')
      /\ active_novas m'
         = (if (2 * Z.of_nat n <? frames_left (objects st r))%Z then [r] else [])
      /\ ((2 * Z.of_nat n < frames_left (objects st r))%Z ->
          frames_left (objects st' r)
          = (frames_left (objects st r) - 2 * Z.of_nat n)%Z).
Proof.
  induction n as [|n IH]; intros m st r enemy_units friendly_units Ha Hu Hf.
  - exists m, st. simpl. split; [reflexivity|].
    destruct (0 <? frames_left (objects st r))%Z eqn:E;
      [|apply Z.ltb_ge in E; lia].
    split; [exact Ha|]. intros _. lia.
  - assert (Hnd : NoDup (active_novas m))
      by (rewrite Ha; constructor; [intros []|constructor]).
    assert (Hb : forall r', In r' (active_novas m) ->
                            nova_unit (objects st r') <> None)
      by (rewrite Ha; intros r' [<-|[]]; exact Hu).
    destruct (update_bound_spec m st enemy_units friendly_units Hnd Hb)
      as [st1 [cmds [U [Hin _]]]].
    destruct (Hin r) as [F1 U1]; [rewrite Ha; left; reflexivity|].
    cbn [ticks]. rewrite U. rewrite Ha. cbn [filter].
    unfold frames_after_tick in F1.
    destruct (frames_left (objects st r) - 1 <=? 0)%Z eqn:L1.
    + (* one frame left: gone after this tick *)
      apply Z.leb_le in L1.
      assert (Z0 : (0 <? frames_left (objects st1 r))%Z = false)
        by (apply Z.ltb_ge; lia).
      rewrite Z0.
      destruct (@ticks_nothing_tracked n (set_active_novas m []) st1
                  enemy_units friendly_units eq_refl) as [m' [T A]].
      exists m', st1. split; [exact T|].
      destruct (2 * Z.of_nat (S n) <? frames_left (objects st r))%Z eqn:C;
        [apply Z.ltb_lt in C; lia|].
      split; [exact A|]. intros X. lia.
    + apply Z.leb_gt in L1.
      destruct (0 <? frames_left (objects st1 r))%Z eqn:G.
      * apply Z.ltb_lt in G.
        assert (Hu1 : nova_unit (objects st1 r) <> None) by (rewrite U1; exact Hu).
        destruct (IH (set_active_novas m [r]) st1 r enemy_units friendly_units
                     eq_refl Hu1 G) as [m' [st' [T [A Fr]]]].
        exists m', st'. split; [exact T|]. rewrite F1 in A, Fr.
        split.
        -- rewrite A.
           destruct (2 * Z.of_nat n <? frames_left (objects st r) - 2)%Z eqn:C1;
             destruct (2 * Z.of_nat (S n) <? frames_left (objects st r))%Z eqn:C2;
             try reflexivity.
           ++ apply Z.ltb_lt in C1. apply Z.ltb_ge in C2. lia.
           ++ apply Z.ltb_ge in C1. apply Z.ltb_lt in C2. lia.
        -- intros X. rewrite Fr by lia. lia.
      * apply Z.ltb_ge in G.
        destruct (@ticks_nothing_tracked n (set_active_novas m []) st1
                    enemy_units friendly_units eq_refl) as [m' [T A]].
        exists m', st1. split; [exact T|].
        destruct (2 * Z.of_nat (S n) <? frames_left (objects st r))%Z eqn:C;
          [apply Z.ltb_lt in C; lia|].
        split; [exact A|]. intros X. lia.
Qed.

Lemma tracked_instance_lifetime_witness :
  exists m' st',
    ticks 24 Examples.tracking Examples.heap [] [] = (Ok tt, m', st')
    /\ active_novas m'
       = (if (2 * Z.of_nat 24 <? frames_left (objects Examples.heap 0))%Z
          then [0] else [])
    /\ ((2 * Z.of_nat 24 < frames_left (objects Examples.heap 0))%Z ->
        frames_left (objects st' 0)
        = (frames_left (objects Examples.heap 0) - 2 * Z.of_nat 24)%Z).
Proof.
  apply (@tracked_instance_lifetime 24 Examples.tracking Examples.heap 0 [] []).
  - reflexivity.
  - simpl. discriminate.
  - simpl. lia.
Defined.

(** ** Commands of the launch *)



(** ** The spacing test *)

(** X22: when the spacing test made before a switch passes, every
    registered target other than the instance's own is at least 5.0 away
    from the new target. *)
Theorem spacing_test_meaning
        (m : manager) (own p : point) (targets : list point) (t : point) :
  too_close m own p = false ->
  current_targets m = Some targets ->
  In t targets ->
  point_eqb t own = false ->
  sqrt_lt (dist2 p t) min_spacing = false.
Proof.
  intros H C Ht Ho. exact (too_close_spacing m own p H C t Ht Ho).
Qed.

Lemma spacing_test_meaning_witness :
  sqrt_lt (dist2 (9, 9)%Q (3, 3)%Q) min_spacing = false.
Proof.
  refine (@spacing_test_meaning (Examples.registry 1 [(2, 2)%Q; (3, 3)%Q])
            (2, 2)%Q (9, 9)%Q [(2, 2)%Q; (3, 3)%Q] (3, 3)%Q _ _ _ _).
  - reflexivity.
  - reflexivity.
  - right. left. reflexivity.
  - reflexivity.
Defined.
